(** * UniquePtr: an exclusive-ownership handle (Rainbow3D::UniquePtr)

    A shallow embedding of [UniquePtr.h].  Handles are objects living at an
    address; every member function takes the address of [*this] and threads
    a machine state holding the live handles, the releaser objects that
    reference-typed releasers are bound to, and the record of releaser
    invocations.  The primary template is the [Scalar] variant, the partial
    specialisation for [T[]] is the [Array] variant. *)

From stdpp Require Import gmap list fin_maps.

Open Scope N_scope.

(** ** Pointers *)

(** A value of the member type [pointer]; [nullptr] is the one value for
    which [if (_ptr)] is false. *)
Definition ptr := N.
Definition nullptr : ptr := 0.

Definition non_null (p : ptr) : bool := negb (p =? nullptr).

Inductive variant := Scalar | Array.

(** ** Types and type traits *)

(** The types that can stand for [element_type], for [pointer] and for the
    template parameter [U] of the array constructors and [Reset]. *)
Inductive ty :=
| nullptr_t                              (* std::nullptr_t *)
| Named (name : N) (is_const : bool)     (* an object type that is no pointer *)
| PointerTo (t : ty).                    (* t* *)

#[global] Instance ty_eq_dec : EqDecision ty.
Proof. solve_decision. Defined.

Definition is_same_v (A B : ty) : bool := bool_decide (A = B).

Definition is_pointer_v (U : ty) : bool :=
  match U with
  | PointerTo _ => true
  | _ => false
  end.

Definition remove_pointer_t (U : ty) : ty :=
  match U with
  | PointerTo t => t
  | _ => U
  end.

(** What the [requires] clauses ask of [deleter_type]. *)
Module Dx.
Record traits := Traits {
  is_pointer_v : bool;
  is_lvalue_reference_v : bool;
  is_default_constructible_v : bool;
  from_const_ref : bool;     (* is_constructible_v<deleter_type, const deleter_type&> *)
  from_rvalue : bool;        (* is_constructible_v<deleter_type, deleter_type&&> *)
  from_self : bool;          (* is_constructible_v<deleter_type, deleter_type> *)
  from_noref_rvalue : bool;  (* is_constructible_v<deleter_type, d_nodef&&> *)
  is_move_constructible_v : bool;
  is_move_assignable_v : bool;
  pointer : option ty        (* the nested type _Dx_noref::pointer, when there is one *)
}.
End Dx.

(** [_Get_deleter_pointer_type<_Ty, _Dx_noref>::type]: the releaser's own
    [pointer] when it names one, [_Ty*] otherwise. *)
Definition _Get_deleter_pointer_type (_Ty : ty) (_Dx_noref : Dx.traits) : ty :=
  match Dx.pointer _Dx_noref with
  | Some t => t
  | None => PointerTo _Ty
  end.

(** One instantiation [UniquePtr<T, Deleter>] or [UniquePtr<T[], Deleter>]. *)
Record instantiation := Instantiation {
  element_type : ty;
  deleter_type : Dx.traits
}.

Definition pointer (I : instantiation) : ty :=
  _Get_deleter_pointer_type (element_type I) (deleter_type I).

(** A pointer argument as the caller wrote it: its static type and the
    address it holds.  Initialising [_ptr] from it gives the null pointer
    when the argument is a [std::nullptr_t]. *)
Record ptr_arg := PtrArg { arg_type : ty; arg_bits : ptr }.

Definition as_pointer (a : ptr_arg) : ptr :=
  match arg_type a with
  | nullptr_t => nullptr
  | _ => arg_bits a
  end.

(** What the constraints of the converting constructor and the converting
    assignment ask about the source [UniquePtr<U, E>]: whether [U] is an
    array type, the instantiation it names, and how [E] relates to the
    [deleter_type] of the destination. *)
Record conversion := Conversion {
  source_variant : variant;       (* Array when std::is_array_v<U> *)
  source : instantiation;         (* element type and releaser of UniquePtr<U, E> *)
  deleter_is_reference : bool;    (* std::is_reference_v<deleter_type> *)
  same_deleter : bool;            (* std::is_same<deleter_type, E>::value *)
  deleter_convertible : bool;     (* std::is_convertible<E, deleter_type>::value *)
  deleter_assignable : bool       (* std::is_assignable_v<deleter_type&, E&&> *)
}.

Definition is_array_v (c : conversion) : bool :=
  match source_variant c with
  | Array => true
  | Scalar => false
  end.

(** ** State and failure *)

Definition ST (S A : Type) : Type := S -> option (A * S).

Definition ret {S A} (a : A) : ST S A := fun st => Some (a, st).
Definition fail {S A} : ST S A := fun _ => None.
Definition bind {S A B} (m : ST S A) (k : A -> ST S B) : ST S B :=
  fun st => match m st with
            | Some (a, st') => k a st'
            | None => None
            end.

Notation "'let*' x ':=' m 'in' k" := (bind m (fun x => k))
  (at level 10, x pattern, m at level 100, k at level 200).
Notation "m ';;;' k" := (bind m (fun _ => k))
  (at level 100, k at level 200, right associativity).

Section Handle.

(** [D] is [std::remove_reference_t<deleter_type>], the type of releaser
    objects.  [moved_from d] is the value a releaser object is left with
    after [d] has been moved out of it (the identity for
    [std::default_delete], function pointers and other trivially movable
    releasers). *)
Variable D : Type.
Variable moved_from : D -> D.

(** The value of [deleter_type()], for the constructors and the array
    move constructor, which value- or default-initialise [_d]. *)
Variable default_d : D.

(** [std::is_convertible_v<V( * )[], E( * )[]>] as a function of [V] and
    [E]: the standard library's answer, not fixed by the header. *)
Variable is_array_convertible : ty -> ty -> bool.

(** [std::is_convertible_v<From, To>], the implicit conversion between two
    pointer types: the standard library's answer as well. *)
Variable is_convertible_v : ty -> ty -> bool.

(** The member [_d]: a releaser object stored in the handle when
    [deleter_type] is an object type, a reference bound to a releaser
    object that lives elsewhere when [deleter_type] is [D&]. *)
Inductive deleter_slot :=
| Owned (d : D)
| RefTo (r : N).

Record handle := Handle { _ptr : ptr; _d : deleter_slot }.

(** One invocation [_d(p)]: the releaser value that ran, its argument, and
    the handles as they stood when it was entered, which is what a
    releaser holding a back reference to a handle can read there. *)
Record call := Call { fn : D; arg : ptr; seen : gmap N handle }.

Record state := State {
  handles  : gmap N handle;   (* live UniquePtr objects, by address *)
  deleters : gmap N D;        (* releaser objects referred to by [RefTo] *)
  calls    : list call        (* releaser invocations, oldest first *)
}.

(** A computation either goes wrong ([None]: a member function is used on
    an address holding no live handle, a dangling releaser reference is
    used, or the member function cannot be instantiated) or returns a
    value and the next state. *)
Definition M (A : Type) : Type := ST state A.

Definition load (this : N) : M handle :=
  fun st => match handles st !! this with
            | Some h => Some (h, st)
            | None => None
            end.

Definition store (this : N) (h : handle) : M unit :=
  fun st => Some (tt, State (<[this := h]> (handles st)) (deleters st) (calls st)).

(** [_ptr = p] *)
Definition write_ptr (this : N) (p : ptr) : M unit :=
  let* h := load this in store this (Handle p (_d h)).

(** The releaser object a slot designates. *)
Definition deleter_of (s : deleter_slot) : M D :=
  fun st => match s with
            | Owned d => Some (d, st)
            | RefTo r => match deleters st !! r with
                         | Some d => Some (d, st)
                         | None => None
                         end
            end.

(** [_d(p)] *)
Definition invoke (this : N) (p : ptr) : M unit :=
  let* h := load this in
  let* d := deleter_of (_d h) in
  fun st => Some (tt, State (handles st) (deleters st)
                            (calls st ++ [Call d p (handles st)])).

(** What an instrumented releaser records: which releaser ran on which
    pointer, in order. *)
Definition released (cs : list call) : list (D * ptr) :=
  map (fun c => (fn c, arg c)) cs.

(** *** Observers *)

(** [pointer Get() const noexcept { return _ptr; }] *)
Definition Get (this : N) : M ptr :=
  let* h := load this in ret (_ptr h).

(** [deleter_type& GetDeleter() noexcept { return _d; }] *)
Definition GetDeleter (this : N) : M deleter_slot :=
  let* h := load this in ret (_d h).

(** [explicit operator bool() const noexcept { return Get() != nullptr; }] *)
Definition operator_bool (this : N) : M bool :=
  let* p := Get this in ret (non_null p).

(** *** Mutators *)

(** [[
    pointer Release() noexcept {
      auto temp = _ptr;
      _ptr = nullptr;
      return temp;
    }
    ]]
    The same text in both variants. *)
Definition Release (this : N) : M ptr :=
  let* h := load this in
  let temp := _ptr h in
  write_ptr this nullptr ;;;
  ret temp.

(** Primary template:
    [[
    void Reset(pointer _Ptr = nullptr) noexcept {
      pointer _Old = std::exchange(_ptr, _Ptr);
      if (_Old) { _d(_Old); }
    }
    ]]
    Array specialisation, both overloads:
    [[
    void Reset(U p) noexcept {
      if (_ptr) { _d(_ptr); }
      _ptr = p;
    }
    ]] *)
Definition Reset (v : variant) (this : N) (p : ptr) : M unit :=
  match v with
  | Scalar =>
      let* h := load this in
      let _Old := _ptr h in
      write_ptr this p ;;;
      if non_null _Old then invoke this _Old else ret tt
  | Array =>
      let* h := load this in
      (if non_null (_ptr h) then invoke this (_ptr h) else ret tt) ;;;
      write_ptr this p
  end.

(** [[
    ~UniquePtr() { if (_ptr) { _d(_ptr); } }
    ]]
    followed by the end of the object's lifetime. *)
Definition destroy (this : N) : M unit :=
  let* h := load this in
  (if non_null (_ptr h) then invoke this (_ptr h) else ret tt) ;;;
  fun st => Some (tt, State (delete this (handles st)) (deleters st) (calls st)).

(** *** Moves *)

(** [_d = std::forward<deleter_type>(r._d)].  For an object-typed releaser
    this move-assigns [r._d] into [_d].  When [deleter_type] is [D&] the
    member [_d] is a reference, [std::forward<D&>] yields an lvalue, and
    the assignment copies the releaser object [r._d] refers to over the
    one [_d] refers to: neither reference is rebound. *)
Definition assign_deleter (this r : N) : M unit :=
  let* hr := load r in
  let* ht := load this in
  match _d ht, _d hr with
  | Owned _, Owned d =>
      store this (Handle (_ptr ht) (Owned d)) ;;;
      let* hr' := load r in
      store r (Handle (_ptr hr') (Owned (moved_from d)))
  | RefTo x, RefTo y =>
      let* d := deleter_of (RefTo y) in
      let* _ := deleter_of (RefTo x) in
      fun st => Some (tt, State (handles st) (<[x := d]> (deleters st)) (calls st))
  | _, _ => fail
  end.

(** Two members [_d] of one and the same [deleter_type]. *)
Definition same_deleter_type (s1 s2 : deleter_slot) : bool :=
  match s1, s2 with
  | Owned _, Owned _ | RefTo _, RefTo _ => true
  | _, _ => false
  end.

(** The object under construction must not be a live handle yet. *)
Definition not_live (this : N) : M unit :=
  fun st => match handles st !! this with
            | Some _ => None
            | None => Some (tt, st)
            end.

(** Primary template:
    [[
    UniquePtr(UniquePtr&& r) noexcept
      : _ptr(r.Release()), _d(std::forward<deleter_type>(r._d)) {}
    ]]
    Array specialisation, where the members are default-initialised
    first (the placeholder [nullptr] stands for the indeterminate [_ptr],
    overwritten by the first statement; a reference member cannot be left
    without initialiser, so the constructor has no instance for [D&]):
    [[
    UniquePtr(UniquePtr&& r) noexcept {
      _ptr = r.Release();
      _d = std::forward<deleter_type>(r._d);
    }
    ]] *)
Definition move_ctor (v : variant) (this r : N) : M unit :=
  not_live this ;;;
  match v with
  | Scalar =>
      let* p := Release r in
      let* hr := load r in
      match _d hr with
      | Owned d =>
          store r (Handle (_ptr hr) (Owned (moved_from d))) ;;;
          store this (Handle p (Owned d))
      | RefTo y => store this (Handle p (RefTo y))
      end
  | Array =>
      let* hr := load r in
      match _d hr with
      | Owned _ =>
          store this (Handle nullptr (Owned default_d)) ;;;
          let* p := Release r in
          write_ptr this p ;;;
          assign_deleter this r
      | RefTo _ => fail
      end
  end.

(** [[
    UniquePtr& operator=(UniquePtr&& r) noexcept {
      if (this != std::addressof(r)) {
        Reset(r.Release());
        _d = std::forward<deleter_type>(r._d);
      }
      return *this;
    }
    ]]
    The same text in both variants, each calling its own [Reset]. *)
Definition move_assign (v : variant) (this r : N) : M unit :=
  if negb (this =? r) then
    let* p := Release r in
    Reset v this p ;;;
    assign_deleter this r
  else ret tt.

(** [[
    UniquePtr& operator=(std::nullptr_t) noexcept { Reset(); return *this; }
    ]] *)
Definition assign_nullptr (v : variant) (this : N) : M unit :=
  Reset v this nullptr.

(** [[
    void Swap(UniquePtr& other) noexcept {
      UniquePtr temp = std::move(other);
      other = std::move( *this );
      *this = std::move(temp);
    }
    ]]
    The local [temp] is a handle of its own, at an address no live handle
    occupies, destroyed when the function returns. *)
Definition Swap (v : variant) (this other : N) : M unit :=
  let* temp := (fun st => Some (fresh (dom (handles st)), st)) in
  move_ctor v temp other ;;;
  move_assign v other this ;;;
  move_assign v this temp ;;;
  destroy temp.

(** *** Element access *)

(** What the operand of a subscript denotes: the member function itself
    when it is only named, the pointer it returns when it is called. *)
Inductive operand :=
| MemberName                 (* [Get]   *)
| MemberCall.                (* [Get()] *)

(** [e[i]]: built-in subscripting needs a pointer operand and designates
    the element [i] places after it; a member function name has no
    subscript, so the expression does not compile. *)
Definition subscript (this : N) (e : operand) (i : N) : M ptr :=
  match e with
  | MemberCall => let* p := Get this in ret (p + i)
  | MemberName => fail
  end.

(** Array specialisation only:
    [[
    T& operator[](std::size_t i) const { return Get[i]; }
    ]] *)
Definition operator_index (this : N) (i : N) : M ptr :=
  subscript this MemberName i.

(** The indexed access the specification describes: the reference to the
    [i]-th element of the held buffer, [Get()[i]]. *)
Definition spec_index (this : N) (i : N) : M ptr :=
  subscript this MemberCall i.

(** Primary template only:
    [[
    pointer operator->() const noexcept { return Get(); }
    std::add_lvalue_reference<T>::type operator* () const { return *_ptr; }
    ]] *)
Definition operator_arrow (this : N) : M ptr := Get this.
Definition operator_star (this : N) : M ptr :=
  let* h := load this in ret (_ptr h).

(** The element-access operators each class declares. *)
Inductive access_operator := op_arrow | op_star | op_index.

Definition declares (v : variant) (o : access_operator) : bool :=
  match v, o with
  | Scalar, op_arrow | Scalar, op_star | Array, op_index => true
  | _, _ => false
  end.

(** *** Constructors *)

(** The last disjunct of the array constraints:
    [[
    std::is_same_v<pointer, element_type*> && std::is_pointer_v<U> &&
    std::is_convertible_v<std::remove_pointer_t<U>( * )[], element_type( * )[]>
    ]] *)
Definition array_conversion_rule (P E U : ty) : bool :=
  is_same_v P (PointerTo E) && is_pointer_v U &&
  is_array_convertible (remove_pointer_t U) E.

(** The constraint of the array [Reset(U p)]. *)
Definition reset_pointer_rule (P E U : ty) : bool :=
  is_same_v U P || array_conversion_rule P E U.

(** The constraint on [U] of the array constructors. *)
Definition ctor_pointer_rule (P E U : ty) : bool :=
  is_same_v U P || is_same_v U nullptr_t || array_conversion_rule P E U.

(** The constructors taking no other handle, by overload. *)
Inductive ctor :=
| ctor_default                              (* UniquePtr() *)
| ctor_nullptr                              (* UniquePtr(std::nullptr_t) *)
| ctor_ptr (a : ptr_arg)                    (* explicit UniquePtr(pointer p) / (U p) *)
| ctor_ptr_cref (a : ptr_arg) (d : D)       (* (p, const deleter_type& d) *)
| ctor_ptr_rref (a : ptr_arg) (d : D)       (* (p, deleter_type&& d) *)
| ctor_ptr_ref (a : ptr_arg) (r : N)        (* (p, deleter_type d), deleter_type = D& *)
| ctor_ptr_noref_rvalue (a : ptr_arg) (d : D).  (* (p, d_nodef&&) = delete *)

Definition pointer_argument (c : ctor) : option ptr_arg :=
  match c with
  | ctor_default | ctor_nullptr => None
  | ctor_ptr a | ctor_ptr_cref a _ | ctor_ptr_rref a _
  | ctor_ptr_ref a _ | ctor_ptr_noref_rvalue a _ => Some a
  end.

(** The releaser the caller hands to the constructor, if any. *)
Definition supplied_deleter (c : ctor) : option deleter_slot :=
  match c with
  | ctor_ptr_cref _ d | ctor_ptr_rref _ d | ctor_ptr_noref_rvalue _ d => Some (Owned d)
  | ctor_ptr_ref _ r => Some (RefTo r)
  | ctor_default | ctor_nullptr | ctor_ptr _ => None
  end.

(** The conjuncts of each [requires] clause that speak of [deleter_type];
    they are the whole clause in the primary template. *)
Definition deleter_requirement (I : instantiation) (c : ctor) : bool :=
  let R := deleter_type I in
  match c with
  | ctor_default | ctor_nullptr | ctor_ptr _ =>
      negb (Dx.is_pointer_v R) && Dx.is_default_constructible_v R
  | ctor_ptr_cref _ _ =>
      negb (Dx.is_lvalue_reference_v R) && Dx.from_const_ref R
  | ctor_ptr_rref _ _ =>
      negb (Dx.is_lvalue_reference_v R) && Dx.from_rvalue R
  | ctor_ptr_ref _ _ =>
      Dx.is_lvalue_reference_v R && Dx.from_self R
  | ctor_ptr_noref_rvalue _ _ =>
      Dx.is_lvalue_reference_v R && Dx.from_noref_rvalue R
  end.

(** What the pointer argument has to satisfy.  In the array specialisation
    its type is the template parameter [U], under the conjunct on [U] of
    the [requires] clause.  In the primary template the parameter is
    [pointer p]: the call is viable only if the argument converts
    implicitly to [pointer]. *)
Definition pointer_requirement (v : variant) (I : instantiation) (c : ctor) : bool :=
  match v, pointer_argument c with
  | Array, Some a => ctor_pointer_rule (pointer I) (element_type I) (arg_type a)
  | Scalar, Some a => is_convertible_v (arg_type a) (pointer I)
  | _, None => true
  end.

Definition requires (v : variant) (I : instantiation) (c : ctor) : bool :=
  deleter_requirement I c && pointer_requirement v I c.

(** The members after the mem-initialiser list. *)
Definition initial_members (c : ctor) : option handle :=
  match c with
  | ctor_default | ctor_nullptr => Some (Handle nullptr (Owned default_d))
  | ctor_ptr a => Some (Handle (as_pointer a) (Owned default_d))
  | ctor_ptr_cref a d | ctor_ptr_rref a d => Some (Handle (as_pointer a) (Owned d))
  | ctor_ptr_ref a r => Some (Handle (as_pointer a) (RefTo r))
  | ctor_ptr_noref_rvalue _ _ => None       (* deleted *)
  end.

(** Constructing a handle at address [this]: the overload has to be
    available and not deleted. *)
Definition construct (v : variant) (I : instantiation) (c : ctor) (this : N) : M unit :=
  if requires v I c then
    match initial_members c with
    | Some h => not_live this ;;; store this h
    | None => fail
    end
  else fail.

(** *** Converting moves *)

(** The last conjunct of both converting constructors:
    [[
    std::conditional_t<std::is_reference_v<deleter_type>,
                       std::is_same<deleter_type, E>,
                       std::is_convertible<E, deleter_type>>::value
    ]] *)
Definition deleter_conversion_rule (c : conversion) : bool :=
  if deleter_is_reference c then same_deleter c else deleter_convertible c.

(** The conjuncts both array converting members share:
    [[
    std::is_array_v<U> &&
    std::is_same_v<pointer, element_type*> &&
    std::is_same_v<typename UniquePtr<U, E>::pointer, other_emement_type*> &&
    std::is_convertible_v<other_emement_type( * )[], element_type( * )[]>
    ]] *)
Definition array_source_rule (I : instantiation) (c : conversion) : bool :=
  is_array_v c &&
  is_same_v (pointer I) (PointerTo (element_type I)) &&
  is_same_v (pointer (source c)) (PointerTo (element_type (source c))) &&
  is_array_convertible (element_type (source c)) (element_type I).

(** [requires] of [UniquePtr(UniquePtr<U, E>&& r)]. *)
Definition converting_ctor_requires (v : variant) (I : instantiation) (c : conversion) : bool :=
  match v with
  | Scalar =>
      is_convertible_v (pointer (source c)) (pointer I) &&
      negb (is_array_v c) &&
      deleter_conversion_rule c
  | Array => array_source_rule I c && deleter_conversion_rule c
  end.

(** [requires] of [operator=(UniquePtr<U, E>&& r)]. *)
Definition converting_assign_requires (v : variant) (I : instantiation) (c : conversion) : bool :=
  match v with
  | Scalar =>
      is_convertible_v (pointer (source c)) (pointer I) && deleter_assignable c
  | Array => array_source_rule I c && deleter_assignable c
  end.

(** [_d = std::forward<E>(r.GetDeleter())], where [E] may be an object
    type or a reference type whatever [deleter_type] is.  The releaser
    objects of the two handles are taken to be of one object type [D], and
    the conversion of the pointer to keep the address.  An rvalue ([E] an
    object type) is moved from, an lvalue ([E] a reference) is copied; the
    target is the member itself, or the object it refers to.  As everywhere
    in this state, a reference releaser is bound to a releaser object of
    [deleters], outside the handles: a reference bound to the member [_d]
    of a handle, for which this assignment would be a self-assignment, is
    not a state of the model. *)
Definition assign_forwarded_deleter (this r : N) : M unit :=
  let* hr := load r in
  let* d := deleter_of (_d hr) in
  let* ht := load this in
  (match _d ht with
   | Owned _ => store this (Handle (_ptr ht) (Owned d))
   | RefTo x =>
       let* _ := deleter_of (RefTo x) in
       fun st => Some (tt, State (handles st) (<[x := d]> (deleters st)) (calls st))
   end) ;;;
  match _d hr with
  | Owned _ =>
      let* hr' := load r in
      store r (Handle (_ptr hr') (Owned (moved_from d)))
  | RefTo _ => ret tt
  end.

(** The member [_d] after a releaser has been assigned to it, and after it
    has been forwarded from. *)
Definition slot_after_assign (s : deleter_slot) (d : D) : deleter_slot :=
  match s with
  | Owned _ => Owned d
  | RefTo x => RefTo x
  end.

Definition slot_after_forward (s : deleter_slot) : deleter_slot :=
  match s with
  | Owned d => Owned (moved_from d)
  | RefTo y => RefTo y
  end.

(** Both variants:
    [[
    UniquePtr(UniquePtr<U, E>&& r) noexcept {
      _ptr = r.Release();
      _d = std::forward<E>(r.GetDeleter());
    }
    ]]
    The argument [r] is a live handle, of another type than the object
    under construction.  There is no mem-initialiser, so [_d] is
    default-initialised first (the placeholder [nullptr] stands for the
    indeterminate [_ptr]): the body has an instance only if [deleter_type]
    is no reference and is default-constructible.  The second statement is an assignment, which
    needs [std::is_assignable_v<deleter_type&, E&&>] although the
    constraint asks for convertibility only. *)
Definition converting_move_ctor (v : variant) (I : instantiation) (c : conversion)
    (this r : N) : M unit :=
  if converting_ctor_requires v I c then
    if Dx.is_lvalue_reference_v (deleter_type I)
       || negb (Dx.is_default_constructible_v (deleter_type I))
       || negb (deleter_assignable c)
    then fail
    else
      not_live this ;;;
      let* _ := load r in
      store this (Handle nullptr (Owned default_d)) ;;;
      let* p := Release r in
      write_ptr this p ;;;
      assign_forwarded_deleter this r
  else fail.

(** Both variants, each with its own [Reset]:
    [[
    UniquePtr& operator=(UniquePtr<U, E>&& r) noexcept {
      Reset(r.Release());
      _d = std::forward<E>(r.GetDeleter());
      return *this;
    }
    ]] *)
Definition converting_move_assign (v : variant) (I : instantiation) (c : conversion)
    (this r : N) : M unit :=
  if converting_assign_requires v I c then
    let* p := Release r in
    Reset v this p ;;;
    assign_forwarded_deleter this r
  else fail.

(** The constrained array overload [Reset(U p)]. *)
Definition Reset_U (I : instantiation) (this : N) (a : ptr_arg) : M unit :=
  if reset_pointer_rule (pointer I) (element_type I) (arg_type a)
  then Reset Array this (as_pointer a)
  else fail.

(** *** Programs and what a handle can come to store *)

(** The constructors and mutating member functions, as calls a program
    makes. *)
Inductive operation :=
| op_construct (v : variant) (c : ctor) (this : N)
| op_move_ctor (v : variant) (this r : N)
| op_converting_move_ctor (v : variant) (c : conversion) (this r : N)
| op_move_assign (v : variant) (this r : N)
| op_converting_move_assign (v : variant) (c : conversion) (this r : N)
| op_assign_nullptr (v : variant) (this : N)
| op_Release (this : N)
| op_Reset (v : variant) (this : N) (p : ptr)
| op_Reset_U (this : N) (a : ptr_arg)
| op_Swap (v : variant) (this other : N)
| op_destroy (this : N).

Definition perform (I : instantiation) (o : operation) : M unit :=
  match o with
  | op_construct v c this => construct v I c this
  | op_move_ctor v this r => move_ctor v this r
  | op_converting_move_ctor v c this r => converting_move_ctor v I c this r
  | op_move_assign v this r => move_assign v this r
  | op_converting_move_assign v c this r => converting_move_assign v I c this r
  | op_assign_nullptr v this => assign_nullptr v this
  | op_Release this => let* _ := Release this in ret tt
  | op_Reset v this p => Reset v this p
  | op_Reset_U this a => Reset_U I this a
  | op_Swap v this other => Swap v this other
  | op_destroy this => destroy this
  end.

Fixpoint perform_all (I : instantiation) (os : list operation) : M unit :=
  match os with
  | [] => ret tt
  | o :: os' => perform I o ;;; perform_all I os'
  end.

(** The releaser a call hands over satisfies [good]. *)
Definition supplies (good : D -> Prop) (o : operation) : Prop :=
  match o with
  | op_construct _ c _ =>
      match supplied_deleter c with
      | Some (Owned d) => good d
      | _ => True
      end
  | _ => True
  end.

Definition slot_good (good : D -> Prop) (s : deleter_slot) : Prop :=
  match s with
  | Owned d => good d
  | RefTo _ => True
  end.

(** Every releaser stored in a handle, every releaser object a reference
    can be bound to and every releaser that has run satisfies [good]. *)
Definition releasers_good (good : D -> Prop) (st : state) : Prop :=
  (forall a h, handles st !! a = Some h -> slot_good good (_d h)) /\
  (forall r d, deleters st !! r = Some d -> good d) /\
  Forall (fun c => good (fn c)) (calls st).

(** [m] keeps the releasers good and returns a value satisfying [Q]. *)
Definition preserves (good : D -> Prop) {A} (m : M A) (Q : A -> Prop) : Prop :=
  forall st a st',
    releasers_good good st -> m st = Some (a, st') ->
    releasers_good good st' /\ Q a.

End Handle.

Arguments Owned {D} d.
Arguments RefTo {D} r.
Arguments Handle {D} _ptr _d.
Arguments _ptr {D} h.
Arguments _d {D} h.
Arguments Call {D} fn arg seen.
Arguments fn {D} c.
Arguments arg {D} c.
Arguments seen {D} c.
Arguments State {D} handles deleters calls.
Arguments handles {D} s.
Arguments deleters {D} s.
Arguments calls {D} s.
Arguments load {D} this.
Arguments store {D} this h.
Arguments write_ptr {D} this p.
Arguments deleter_of {D} s.
Arguments invoke {D} this p.
Arguments released {D} cs.
Arguments Get {D} this.
Arguments GetDeleter {D} this.
Arguments operator_bool {D} this.
Arguments Release {D} this.
Arguments Reset {D} v this p.
Arguments destroy {D} this.
Arguments assign_deleter {D} moved_from this r.
Arguments not_live {D} this.
Arguments same_deleter_type {D} s1 s2.
Arguments move_ctor {D} moved_from default_d v this r.
Arguments move_assign {D} moved_from v this r.
Arguments assign_nullptr {D} v this.
Arguments Swap {D} moved_from default_d v this other.
Arguments subscript {D} this e i.
Arguments operator_index {D} this i.
Arguments spec_index {D} this i.
Arguments operator_arrow {D} this.
Arguments operator_star {D} this.
Arguments ctor_default {D}.
Arguments ctor_nullptr {D}.
Arguments ctor_ptr {D} a.
Arguments ctor_ptr_cref {D} a d.
Arguments ctor_ptr_rref {D} a d.
Arguments ctor_ptr_ref {D} a r.
Arguments ctor_ptr_noref_rvalue {D} a d.
Arguments pointer_argument {D} c.
Arguments supplied_deleter {D} c.
Arguments deleter_requirement {D} I c.
Arguments pointer_requirement {D} is_array_convertible is_convertible_v v I c.
Arguments requires {D} is_array_convertible is_convertible_v v I c.
Arguments initial_members {D} default_d c.
Arguments construct {D} default_d is_array_convertible is_convertible_v v I c this.
Arguments assign_forwarded_deleter {D} moved_from this r.
Arguments slot_after_assign {D} s d.
Arguments slot_after_forward {D} moved_from s.
Arguments converting_move_ctor {D} moved_from default_d is_array_convertible is_convertible_v v I c this r.
Arguments converting_move_assign {D} moved_from is_array_convertible is_convertible_v v I c this r.
Arguments Reset_U {D} is_array_convertible I this a.
Arguments op_construct {D} v c this.
Arguments op_move_ctor {D} v this r.
Arguments op_converting_move_ctor {D} v c this r.
Arguments op_move_assign {D} v this r.
Arguments op_converting_move_assign {D} v c this r.
Arguments op_assign_nullptr {D} v this.
Arguments op_Release {D} this.
Arguments op_Reset {D} v this p.
Arguments op_Reset_U {D} this a.
Arguments op_Swap {D} v this other.
Arguments op_destroy {D} this.
Arguments perform {D} moved_from default_d is_array_convertible is_convertible_v I o.
Arguments perform_all {D} moved_from default_d is_array_convertible is_convertible_v I os.
Arguments supplies {D} good o.
Arguments slot_good {D} good s.
Arguments releasers_good {D} good st.
Arguments preserves {D} good {A} m Q.

(** ** Concrete releasers and states for the examples *)

(** Releasers that are plain function pointers: the address of the
    function, [0] for the null function pointer.  Moving one out leaves
    the source as it was, and [deleter_type()] is the null pointer. *)
Definition fnptr := N.
Definition null_fn : fnptr := 0.
Definition keep (d : fnptr) : fnptr := d.

(** Array-pointer conversions are qualification conversions: same object
    type, [const] added at most. *)
Definition qualification_convertible (V E : ty) : bool :=
  match V, E with
  | Named n c, Named m c' => (n =? m) && implb c c'
  | _, _ => bool_decide (V = E)
  end.

(** Implicit conversions between pointer types: a qualification conversion
    of the pointee, or the null pointer constant to any pointer. *)
Definition pointer_convertible (From To : ty) : bool :=
  match From, To with
  | PointerTo a, PointerTo b => qualification_convertible a b
  | nullptr_t, PointerTo _ => true
  | _, _ => bool_decide (From = To)
  end.

Definition int_t : ty := Named 1 false.

(** [std::default_delete<int>]-like releaser: a default-constructible class. *)
Definition class_deleter : Dx.traits :=
  Dx.Traits false false true true true true true true true None.

(** A releaser class that has no default constructor. *)
Definition no_default_deleter : Dx.traits :=
  Dx.Traits false false false true true true true true true None.

(** [void ( * )(int * )]: a plain function pointer. *)
Definition fnptr_deleter : Dx.traits :=
  Dx.Traits true false true true true true true true true None.

(** [Del&] for a copyable class [Del]; [const deleter_type&] and
    [deleter_type&&] both collapse to [Del&]. *)
Definition ref_deleter : Dx.traits :=
  Dx.Traits false true false true true true false true true None.

(** A releaser whose nested [pointer] is [std::nullptr_t]. *)
Definition nullptr_handle_deleter : Dx.traits :=
  Dx.Traits false false true true true true true true true (Some nullptr_t).

Definition empty_state : state fnptr := State ∅ ∅ [].

(** One handle at address 1 owning resource 100, releaser 7. *)
Definition one_handle : state fnptr :=
  State {[ 1 := Handle 100 (Owned 7) ]} ∅ [].

(** Handles [a] at 1 owning X = 100 and [b] at 2 owning Y = 200, with
    releaser objects 7 and 8 stored in the handles. *)
Definition two_handles : state fnptr :=
  State (<[ 1 := Handle 100 (Owned 7) ]> {[ 2 := Handle 200 (Owned 8) ]}) ∅ [].

(** The same two handles of type [UniquePtr<T, Del&>]: [a] is bound to the
    releaser object at 10 (value 7), [b] to the one at 20 (value 8). *)
Definition two_ref_handles : state fnptr :=
  State (<[ 1 := Handle 100 (RefTo 10) ]> {[ 2 := Handle 200 (RefTo 20) ]})
        (<[ 10 := 7 ]> {[ 20 := 8 ]}) [].

(** The end-to-end scenarios of the specification, run from the empty state
    with an instrumented releaser; the handle type is [UniquePtr<int, Del>]
    or [UniquePtr<int[], Del>] for a class [Del]. *)
Definition int_handle : instantiation := Instantiation int_t class_deleter.

Definition new_handle (v : variant) (this : N) (p : ptr) (d : fnptr) : ST (state fnptr) unit :=
  construct null_fn qualification_convertible pointer_convertible v int_handle
    (ctor_ptr_cref (PtrArg (PointerTo int_t) p) d) this.

Definition run_released {A} (m : ST (state fnptr) A) : option (A * list (fnptr * ptr)) :=
  match m empty_state with
  | Some (a, st) => Some (a, released (calls st))
  | None => None
  end.

Definition scenario_destroy (v : variant) : ST (state fnptr) unit :=
  new_handle v 1 100 7 ;;; destroy 1.

Definition scenario_reset (v : variant) : ST (state fnptr) unit :=
  new_handle v 1 100 7 ;;; Reset v 1 200 ;;; destroy 1.

Definition scenario_release (v : variant) : ST (state fnptr) ptr :=
  new_handle v 1 100 7 ;;;
  let* p := Release 1 in
  destroy 1 ;;; ret p.

Definition scenario_move (v : variant) : ST (state fnptr) (ptr * ptr) :=
  new_handle v 1 100 7 ;;;
  move_ctor keep null_fn v 2 1 ;;;
  let* pa := Get 1 in
  let* pb := Get 2 in
  destroy 2 ;;; destroy 1 ;;; ret (pa, pb).

Definition scenario_swap (v : variant) : ST (state fnptr) (ptr * ptr) :=
  new_handle v 1 100 7 ;;;
  new_handle v 2 200 8 ;;;
  Swap keep null_fn v 1 2 ;;;
  let* pa := Get 1 in
  let* pb := Get 2 in
  destroy 1 ;;; destroy 2 ;;; ret (pa, pb).

Definition scenario_index : ST (state fnptr) (ptr * ptr * ptr) :=
  new_handle Array 1 100 7 ;;;
  let* e0 := operator_index 1 0 in
  let* e1 := operator_index 1 1 in
  let* e2 := operator_index 1 2 in
  destroy 1 ;;; ret (e0, e1, e2).

Definition scenario_index_as_specified : ST (state fnptr) (ptr * ptr * ptr) :=
  new_handle Array 1 100 7 ;;;
  let* e0 := spec_index 1 0 in
  let* e1 := spec_index 1 1 in
  let* e2 := spec_index 1 2 in
  destroy 1 ;;; ret (e0, e1, e2).

Definition const_int_t : ty := Named 1 true.

(** A source [UniquePtr<int, Del>], and a source [UniquePtr<int[], Del>], for
    a destination whose releaser is the same class [Del]. *)
Definition from_int_handle : conversion :=
  Conversion Scalar int_handle false true true true.
Definition from_int_array_handle : conversion :=
  Conversion Array int_handle false true true true.

(** A handle at 1 that holds nothing, beside the handle [b] of
    [two_handles]. *)
Definition empty_and_full : state fnptr :=
  State (<[ 1 := Handle nullptr (Owned 7) ]> {[ 2 := Handle 200 (Owned 8) ]}) ∅ [].

(** Two handles that were both given the raw pointer 100. *)
Definition aliased_handles : state fnptr :=
  State (<[ 1 := Handle 100 (Owned 7) ]> {[ 2 := Handle 100 (Owned 8) ]}) ∅ [].

(** [UniquePtr<int, void ( * )(int * )>], the releasers that are not the null
    function pointer, and a program over three such handles. *)
Definition fnptr_handle : instantiation := Instantiation int_t fnptr_deleter.

Definition not_null_fn (d : fnptr) : Prop := d <> null_fn.

Definition fnptr_program : list (operation fnptr) :=
  [ op_construct Scalar (ctor_ptr_cref (PtrArg (PointerTo int_t) 100) 7) 1;
    op_construct Scalar (ctor_ptr_rref (PtrArg (PointerTo int_t) 200) 8) 2;
    op_Swap Scalar 1 2;
    op_move_ctor Scalar 3 1;
    op_Reset Scalar 2 300;
    op_move_assign Scalar 1 2;
    op_destroy 3;
    op_destroy 2;
    op_destroy 1 ].

(** ** Properties *)

Section Properties.

Context {D : Type}.
Variable moved_from : D -> D.
Variable default_d : D.
Variable is_array_convertible : ty -> ty -> bool.
Variable is_convertible_v : ty -> ty -> bool.

Implicit Types (st : state D) (h : handle D) (this r other : N) (p : ptr) (d : D).

(** Two maps built from inserts and deletes over the same base agree when
    they agree at every key. *)
Ltac same_map :=
  apply map_eq; intros ?;
  repeat first [rewrite lookup_insert | rewrite lookup_delete];
  repeat case_decide; subst; simpl; congruence.

Lemma non_null_true p : p <> nullptr -> non_null p = true.
Proof.
  intros Hp. unfold non_null. apply negb_true_iff, N.eqb_neq. exact Hp.
Qed.

Lemma non_null_false p : p = nullptr -> non_null p = false.
Proof. intros ->. reflexivity. Qed.

Lemma load_live this st h : handles st !! this = Some h -> load this st = Some (h, st).
Proof. intros H. unfold load. rewrite H. reflexivity. Qed.

Lemma Get_live this st h : handles st !! this = Some h -> Get this st = Some (_ptr h, st).
Proof. intros H. unfold Get, bind, ret. rewrite (load_live _ _ _ H). reflexivity. Qed.

Lemma write_ptr_live this st h p :
  handles st !! this = Some h ->
  write_ptr this p st
  = Some (tt, State (<[this := Handle p (_d h)]> (handles st)) (deleters st) (calls st)).
Proof. intros H. unfold write_ptr, bind, store. rewrite (load_live _ _ _ H). reflexivity. Qed.

Lemma invoke_live this st h d p :
  handles st !! this = Some h ->
  deleter_of (_d h) st = Some (d, st) ->
  invoke this p st
  = Some (tt, State (handles st) (deleters st) (calls st ++ [Call d p (handles st)])).
Proof.
  intros H Hd. unfold invoke, bind. rewrite (load_live _ _ _ H), Hd. reflexivity.
Qed.

Lemma Release_live this st h :
  handles st !! this = Some h ->
  Release this st
  = Some (_ptr h, State (<[this := Handle nullptr (_d h)]> (handles st)) (deleters st) (calls st)).
Proof.
  intros H. unfold Release, bind, ret.
  rewrite (load_live _ _ _ H), (write_ptr_live _ _ _ _ H). reflexivity.
Qed.

(** A releaser is found in the same way whatever the handles and the
    record of calls are. *)
Lemma deleter_of_frame (s : deleter_slot D) st d hs cs :
  deleter_of s st = Some (d, st) ->
  deleter_of s (State hs (deleters st) cs) = Some (d, State hs (deleters st) cs).
Proof.
  unfold deleter_of. destruct s as [d'|x]; simpl.
  - intros [= ->]. reflexivity.
  - destruct (deleters st !! x); [intros [= ->]; reflexivity | discriminate].
Qed.

(** C6. [Release()] returns the pointer [Get()] returned just before the
    call, leaves [Get()] null, keeps the stored releaser and records no
    releaser invocation. *)
Theorem Release_returns_pointer_and_empties this st h :
  handles st !! this = Some h ->
  Get this st = Some (_ptr h, st) /\
  exists st',
    Release this st = Some (_ptr h, st') /\
    Get this st' = Some (nullptr, st') /\
    GetDeleter this st' = Some (_d h, st') /\
    calls st' = calls st /\
    deleters st' = deleters st.
Proof.
  intros H. split; [exact (Get_live _ _ _ H) |].
  eexists. split; [exact (Release_live _ _ _ H) |].
  unfold Get, GetDeleter, bind, ret, load. simpl.
  rewrite lookup_insert_eq. simpl. repeat split.
Qed.

(** C7. The destructor invokes the releaser exactly once, on the stored
    pointer, when that pointer is not null, and not at all when it is
    null. *)
Theorem destroy_invokes_releaser_iff_non_null this st h :
  handles st !! this = Some h ->
  Get this st = Some (_ptr h, st) /\
  (forall d, _ptr h <> nullptr -> deleter_of (_d h) st = Some (d, st) ->
     destroy this st
     = Some (tt, State (delete this (handles st)) (deleters st)
                       (calls st ++ [Call d (_ptr h) (handles st)]))) /\
  (_ptr h = nullptr ->
     destroy this st
     = Some (tt, State (delete this (handles st)) (deleters st) (calls st))).
Proof.
  intros H. split; [exact (Get_live _ _ _ H) |]. split.
  - intros d Hp Hd. unfold destroy, bind.
    rewrite (load_live _ _ _ H), (non_null_true _ Hp), (invoke_live _ _ _ _ _ H Hd).
    reflexivity.
  - intros Hp. unfold destroy, bind.
    rewrite (load_live _ _ _ H), (non_null_false _ Hp). reflexivity.
Qed.

Lemma Reset_scalar_non_null this st h d p :
  handles st !! this = Some h ->
  _ptr h <> nullptr ->
  deleter_of (_d h) st = Some (d, st) ->
  Reset Scalar this p st
  = Some (tt, State (<[this := Handle p (_d h)]> (handles st)) (deleters st)
                    (calls st ++ [Call d (_ptr h) (<[this := Handle p (_d h)]> (handles st))])).
Proof.
  intros H Hp Hd. unfold Reset, bind.
  rewrite (load_live _ _ _ H), (write_ptr_live _ _ _ _ H), (non_null_true _ Hp).
  erewrite invoke_live; [reflexivity | apply lookup_insert_eq |].
  simpl. apply (deleter_of_frame _ st). exact Hd.
Qed.

Lemma Reset_array_non_null this st h d p :
  handles st !! this = Some h ->
  _ptr h <> nullptr ->
  deleter_of (_d h) st = Some (d, st) ->
  Reset Array this p st
  = Some (tt, State (<[this := Handle p (_d h)]> (handles st)) (deleters st)
                    (calls st ++ [Call d (_ptr h) (handles st)])).
Proof.
  intros H Hp Hd. unfold Reset, bind.
  rewrite (load_live _ _ _ H), (non_null_true _ Hp), (invoke_live _ _ _ _ _ H Hd).
  erewrite write_ptr_live; [reflexivity | exact H].
Qed.

Lemma Reset_null this st h v p :
  handles st !! this = Some h ->
  _ptr h = nullptr ->
  Reset v this p st
  = Some (tt, State (<[this := Handle p (_d h)]> (handles st)) (deleters st) (calls st)).
Proof.
  intros H Hp. destruct v; unfold Reset, bind.
  - rewrite (load_live _ _ _ H), (write_ptr_live _ _ _ _ H), (non_null_false _ Hp).
    reflexivity.
  - rewrite (load_live _ _ _ H), (non_null_false _ Hp). unfold ret.
    rewrite (write_ptr_live _ _ _ _ H). reflexivity.
Qed.

(** The primary template installs first: the releaser, when it runs, finds
    the new pointer in the handle. *)
Lemma Reset_scalar_installs_before_release this st h d p :
  handles st !! this = Some h ->
  _ptr h <> nullptr ->
  deleter_of (_d h) st = Some (d, st) ->
  exists st' c,
    Reset Scalar this p st = Some (tt, st') /\
    calls st' = calls st ++ [c] /\
    arg c = _ptr h /\
    _ptr <$> seen c !! this = Some p.
Proof.
  intros H Hp Hd. do 2 eexists.
  split; [exact (Reset_scalar_non_null _ _ _ _ p H Hp Hd) |].
  split; [reflexivity |]. simpl. rewrite lookup_insert_eq. split; reflexivity.
Qed.

(** C1. In the array specialisation the releaser runs while the handle
    still stores the old pointer; the new one is installed only after the
    releaser has returned. *)
Theorem Reset_array_releases_before_install this st h d p :
  handles st !! this = Some h ->
  _ptr h <> nullptr ->
  deleter_of (_d h) st = Some (d, st) ->
  exists st' c,
    Reset Array this p st = Some (tt, st') /\
    calls st' = calls st ++ [c] /\
    arg c = _ptr h /\
    _ptr <$> seen c !! this = Some (_ptr h) /\
    (p <> _ptr h -> _ptr <$> seen c !! this <> Some p) /\
    Get this st' = Some (p, st').
Proof.
  intros H Hp Hd. do 2 eexists.
  split; [exact (Reset_array_non_null _ _ _ _ p H Hp Hd) |].
  split; [reflexivity |]. simpl. rewrite H. simpl.
  split; [reflexivity |]. split; [reflexivity |].
  split; [intros Hne [= E]; apply Hne; symmetry; exact E |].
  unfold Get, bind, load, ret. simpl. rewrite lookup_insert_eq. reflexivity.
Qed.

(** C10. In the primary template, [Reset(p)] with the non-null pointer the
    handle already stores invokes the releaser once on [p], and the handle
    goes on storing [p]. *)
Theorem Reset_same_pointer_releases_and_keeps this st h d :
  handles st !! this = Some h ->
  _ptr h <> nullptr ->
  deleter_of (_d h) st = Some (d, st) ->
  exists st',
    Reset Scalar this (_ptr h) st = Some (tt, st') /\
    calls st' = calls st ++ [Call d (_ptr h) (handles st)] /\
    handles st' = handles st /\
    Get this st' = Some (_ptr h, st').
Proof.
  intros H Hp Hd.
  assert (Hid : <[this := Handle (_ptr h) (_d h)]> (handles st) = handles st).
  { apply insert_id. rewrite H. destruct h; reflexivity. }
  eexists. split; [exact (Reset_scalar_non_null _ _ _ _ _ H Hp Hd) |].
  simpl. rewrite Hid. repeat split.
  unfold Get, bind, load, ret. simpl. rewrite H. reflexivity.
Qed.

(** C4. Move-assigning a handle to itself changes nothing: the state
    after the call is the state before it, so the stored pointer and the
    stored releaser are the same and no releaser ran.  The test is on the
    addresses: with two addresses that differ the body runs. *)
Theorem self_move_assign_is_noop (v : variant) this r st :
  move_assign moved_from v this this st = Some (tt, st) /\
  (this <> r ->
   move_assign moved_from v this r st
   = (let* p := Release r in Reset v this p ;;; assign_deleter moved_from this r) st).
Proof.
  unfold move_assign. split.
  - rewrite N.eqb_refl. reflexivity.
  - intros Hne. apply N.eqb_neq in Hne. rewrite Hne. reflexivity.
Qed.

Lemma Reset_live (v : variant) this st h d p :
  handles st !! this = Some h ->
  deleter_of (_d h) st = Some (d, st) ->
  Reset v this p st
  = Some (tt, State (<[this := Handle p (_d h)]> (handles st)) (deleters st)
                    (calls st ++
                     if non_null (_ptr h)
                     then [Call d (_ptr h)
                             (match v with
                              | Scalar => <[this := Handle p (_d h)]> (handles st)
                              | Array => handles st
                              end)]
                     else [])).
Proof.
  intros H Hd. destruct (N.eq_dec (_ptr h) nullptr) as [Hp|Hp].
  - rewrite (Reset_null _ _ _ v p H Hp), (non_null_false _ Hp), app_nil_r. reflexivity.
  - rewrite (non_null_true _ Hp). destruct v.
    + exact (Reset_scalar_non_null _ _ _ _ p H Hp Hd).
    + exact (Reset_array_non_null _ _ _ _ p H Hp Hd).
Qed.

Lemma assign_deleter_owned this r st pt pr dt dr :
  this <> r ->
  handles st !! this = Some (Handle pt (Owned dt)) ->
  handles st !! r = Some (Handle pr (Owned dr)) ->
  assign_deleter moved_from this r st
  = Some (tt, State (<[r := Handle pr (Owned (moved_from dr))]>
                       (<[this := Handle pt (Owned dr)]> (handles st)))
                    (deleters st) (calls st)).
Proof.
  intros Hne Ht Hr. unfold assign_deleter, bind.
  rewrite (load_live _ _ _ Hr), (load_live _ _ _ Ht). simpl.
  unfold load. simpl. rewrite lookup_insert_ne by exact Hne. rewrite Hr. reflexivity.
Qed.

Lemma assign_deleter_ref this r st pt pr x y dx dy :
  handles st !! this = Some (Handle pt (RefTo x)) ->
  handles st !! r = Some (Handle pr (RefTo y)) ->
  deleters st !! x = Some dx ->
  deleters st !! y = Some dy ->
  assign_deleter moved_from this r st
  = Some (tt, State (handles st) (<[x := dy]> (deleters st)) (calls st)).
Proof.
  intros Ht Hr Hx Hy. unfold assign_deleter, bind.
  rewrite (load_live _ _ _ Hr), (load_live _ _ _ Ht). simpl.
  rewrite Hy, Hx. reflexivity.
Qed.

Lemma move_ctor_scalar_live this r st hr :
  handles st !! this = None ->
  handles st !! r = Some hr ->
  move_ctor moved_from default_d Scalar this r st
  = Some (tt, State (<[this := hr]>
                       (<[r := Handle nullptr
                                 (match _d hr with
                                  | Owned d => Owned (moved_from d)
                                  | RefTo y => RefTo y
                                  end)]> (handles st)))
                    (deleters st) (calls st)).
Proof.
  intros Ht Hr. unfold move_ctor, bind at 1. unfold not_live. rewrite Ht.
  unfold bind. rewrite (Release_live _ _ _ Hr). unfold load, store. simpl.
  rewrite lookup_insert_eq. simpl. destruct hr as [pr [dr|y]]; simpl.
  - rewrite insert_insert_eq. reflexivity.
  - reflexivity.
Qed.

Lemma move_ctor_array_live this r st pr dr :
  handles st !! this = None ->
  handles st !! r = Some (Handle pr (Owned dr)) ->
  move_ctor moved_from default_d Array this r st
  = Some (tt, State (<[r := Handle nullptr (Owned (moved_from dr))]>
                       (<[this := Handle pr (Owned dr)]> (handles st)))
                    (deleters st) (calls st)).
Proof.
  intros Ht Hr.
  assert (Hne : this <> r) by (intros ->; rewrite Hr in Ht; discriminate).
  unfold move_ctor, bind at 1. unfold not_live. rewrite Ht.
  unfold bind at 1. rewrite (load_live _ _ _ Hr). simpl.
  unfold bind at 1. unfold store at 1.
  unfold bind at 1. erewrite Release_live
    by (simpl; rewrite lookup_insert_ne by exact Hne; exact Hr).
  unfold bind at 1. erewrite write_ptr_live by (simpl; rewrite lookup_insert_ne by congruence; apply lookup_insert_eq).
  erewrite assign_deleter_owned; [| exact Hne | simpl; apply lookup_insert_eq |
    simpl; rewrite lookup_insert_ne by exact Hne; apply lookup_insert_eq].
  simpl. f_equal. f_equal. f_equal.
  apply map_eq. intros i.
  destruct (decide (i = r)) as [->|Hir]; [rewrite !lookup_insert_eq; reflexivity |].
  rewrite !(lookup_insert_ne _ r) by congruence.
  destruct (decide (i = this)) as [->|Hit]; [rewrite !lookup_insert_eq; reflexivity |].
  rewrite !(lookup_insert_ne _ this) by congruence.
  rewrite !(lookup_insert_ne _ r) by congruence.
  rewrite !(lookup_insert_ne _ this) by congruence. reflexivity.
Qed.

Lemma move_assign_owned (v : variant) this r st pt pr dt dr :
  this <> r ->
  handles st !! this = Some (Handle pt (Owned dt)) ->
  handles st !! r = Some (Handle pr (Owned dr)) ->
  move_assign moved_from v this r st
  = Some (tt, State (<[r := Handle nullptr (Owned (moved_from dr))]>
                       (<[this := Handle pr (Owned dr)]> (handles st)))
                    (deleters st)
                    (calls st ++
                     if non_null pt
                     then [Call dt pt
                             (match v with
                              | Scalar => <[this := Handle pr (Owned dt)]>
                                            (<[r := Handle nullptr (Owned dr)]> (handles st))
                              | Array => <[r := Handle nullptr (Owned dr)]> (handles st)
                              end)]
                     else [])).
Proof.
  intros Hne Ht Hr. unfold move_assign.
  apply N.eqb_neq in Hne as Hb. rewrite Hb. simpl.
  unfold bind at 1. rewrite (Release_live _ _ _ Hr). simpl.
  unfold bind at 1.
  erewrite (Reset_live v this _ (Handle pt (Owned dt)) dt);
    [| simpl; rewrite lookup_insert_ne by congruence; exact Ht | reflexivity].
  erewrite assign_deleter_owned;
    [| exact Hne | simpl; apply lookup_insert_eq
     | simpl; rewrite lookup_insert_ne by exact Hne; apply lookup_insert_eq].
  simpl. do 3 f_equal. same_map.
Qed.

Lemma move_assign_ref (v : variant) this r st pt pr x y dx dy :
  this <> r ->
  handles st !! this = Some (Handle pt (RefTo x)) ->
  handles st !! r = Some (Handle pr (RefTo y)) ->
  deleters st !! x = Some dx ->
  deleters st !! y = Some dy ->
  move_assign moved_from v this r st
  = Some (tt, State (<[this := Handle pr (RefTo x)]>
                       (<[r := Handle nullptr (RefTo y)]> (handles st)))
                    (<[x := dy]> (deleters st))
                    (calls st ++
                     if non_null pt
                     then [Call dx pt
                             (match v with
                              | Scalar => <[this := Handle pr (RefTo x)]>
                                            (<[r := Handle nullptr (RefTo y)]> (handles st))
                              | Array => <[r := Handle nullptr (RefTo y)]> (handles st)
                              end)]
                     else [])).
Proof.
  intros Hne Ht Hr Hx Hy. unfold move_assign.
  apply N.eqb_neq in Hne as Hb. rewrite Hb. simpl.
  unfold bind at 1. rewrite (Release_live _ _ _ Hr). simpl.
  unfold bind at 1.
  erewrite (Reset_live v this _ (Handle pt (RefTo x)) dx);
    [| simpl; rewrite lookup_insert_ne by congruence; exact Ht
     | unfold deleter_of; simpl; rewrite Hx; reflexivity].
  erewrite assign_deleter_ref;
    [| simpl; apply lookup_insert_eq
     | simpl; rewrite lookup_insert_ne by exact Hne; apply lookup_insert_eq
     | exact Hx | exact Hy].
  reflexivity.
Qed.

(** C3. Move construction leaves the source empty, gives the new handle
    the pointer the source held, and runs no releaser.  Move assignment
    between two distinct handles does the same to the two pointers, and
    releases what the destination held before: the destination's releaser
    runs once on the destination's old pointer when that pointer is not
    null, and no releaser runs otherwise. *)
Theorem move_transfers_pointer (v : variant) this r st hr :
  handles st !! r = Some hr ->
  (handles st !! this = None ->
   (v = Array -> exists d, _d hr = Owned d) ->
   exists st',
     move_ctor moved_from default_d v this r st = Some (tt, st') /\
     Get r st' = Some (nullptr, st') /\
     Get this st' = Some (_ptr hr, st') /\
     calls st' = calls st) /\
  (forall ht dt dr,
   this <> r ->
   handles st !! this = Some ht ->
   same_deleter_type (_d ht) (_d hr) = true ->
   deleter_of (_d ht) st = Some (dt, st) ->
   deleter_of (_d hr) st = Some (dr, st) ->
   exists st' cs,
     move_assign moved_from v this r st = Some (tt, st') /\
     Get r st' = Some (nullptr, st') /\
     Get this st' = Some (_ptr hr, st') /\
     calls st' = calls st ++ cs /\
     released cs
     = if non_null (_ptr ht) then [(dt, _ptr ht)] else []).
Proof.
  intros Hr. split.
  - intros Ht Hv.
    assert (Hne : this <> r) by (intros ->; rewrite Hr in Ht; discriminate).
    destruct v.
    + eexists. split; [exact (move_ctor_scalar_live _ _ _ _ Ht Hr) |].
      unfold Get, bind, load, ret. simpl.
      rewrite lookup_insert_eq, lookup_insert_ne by exact Hne.
      rewrite lookup_insert_eq. repeat split.
    + destruct Hv as [d Hd]; [reflexivity |].
      destruct hr as [pr s]. simpl in Hd. subst s.
      eexists. split; [exact (move_ctor_array_live _ _ _ _ _ Ht Hr) |].
      unfold Get, bind, load, ret. simpl.
      rewrite lookup_insert_eq, lookup_insert_ne by congruence.
      rewrite lookup_insert_eq. repeat split.
  - intros [pt [dt0|x]] dt dr Hne Ht Hs Hdt Hdr;
      destruct hr as [pr [dr0|y]]; simpl in *; try discriminate.
    + injection Hdt as ->. injection Hdr as ->.
      do 2 eexists. split; [exact (move_assign_owned v _ _ _ _ _ _ _ Hne Ht Hr) |].
      unfold Get, bind, load, ret. simpl.
      rewrite lookup_insert_eq, lookup_insert_ne by congruence.
      rewrite lookup_insert_eq. repeat split.
      destruct (non_null pt); reflexivity.
    + unfold deleter_of in Hdt, Hdr.
      destruct (deleters st !! x) as [dx|] eqn:Hx; [| discriminate].
      destruct (deleters st !! y) as [dy|] eqn:Hy; [| discriminate].
      injection Hdt as ->. injection Hdr as ->.
      do 2 eexists.
      split; [exact (move_assign_ref v _ _ _ _ _ _ _ _ _ Hne Ht Hr Hx Hy) |].
      unfold Get, bind, load, ret. simpl.
      rewrite lookup_insert_ne by exact Hne.
      rewrite !lookup_insert_eq. repeat split.
      destruct (non_null pt); reflexivity.
Qed.

Lemma destroy_null this st h :
  handles st !! this = Some h ->
  _ptr h = nullptr ->
  destroy this st
  = Some (tt, State (delete this (handles st)) (deleters st) (calls st)).
Proof.
  intros H Hp. unfold destroy, bind.
  rewrite (load_live _ _ _ H), (non_null_false _ Hp). reflexivity.
Qed.

Lemma fresh_not_live st : handles st !! fresh (dom (handles st)) = None.
Proof. apply not_elem_of_dom, is_fresh. Qed.

Lemma move_assign_same_address (v : variant) this st :
  move_assign moved_from v this this st = Some (tt, st).
Proof. unfold move_assign. rewrite N.eqb_refl. reflexivity. Qed.

Lemma move_ctor_owned (v : variant) this r st pr dr :
  handles st !! this = None ->
  handles st !! r = Some (Handle pr (Owned dr)) ->
  move_ctor moved_from default_d v this r st
  = Some (tt, State (<[r := Handle nullptr (Owned (moved_from dr))]>
                       (<[this := Handle pr (Owned dr)]> (handles st)))
                    (deleters st) (calls st)).
Proof.
  intros Ht Hr.
  assert (Hne : this <> r) by (intros ->; rewrite Hr in Ht; discriminate).
  destruct v.
  - rewrite (move_ctor_scalar_live _ _ _ _ Ht Hr). simpl. do 3 f_equal. same_map.
  - exact (move_ctor_array_live _ _ _ _ _ Ht Hr).
Qed.

(** Object-typed releasers: [Swap] exchanges the two members of two
    distinct handles and runs no releaser. *)
Lemma Swap_owned_exchanges (v : variant) this other st X Y da db :
  this <> other ->
  handles st !! this = Some (Handle X (Owned da)) ->
  handles st !! other = Some (Handle Y (Owned db)) ->
  Swap moved_from default_d v this other st
  = Some (tt, State (<[this := Handle Y (Owned db)]>
                       (<[other := Handle X (Owned da)]> (handles st)))
                    (deleters st) (calls st)).
Proof.
  intros Hne Ha Hb. unfold Swap. unfold bind at 1.
  pose proof (fresh_not_live st) as Hf.
  set (temp := fresh (dom (handles st))) in *.
  assert (Hta : temp <> this) by (intros E; rewrite E, Ha in Hf; discriminate).
  assert (Htb : temp <> other) by (intros E; rewrite E, Hb in Hf; discriminate).
  unfold bind at 1. rewrite (move_ctor_owned v _ _ _ _ _ Hf Hb).
  unfold bind at 1.
  erewrite (move_assign_owned v other this _ nullptr X (moved_from db) da);
    [| congruence
     | simpl; apply lookup_insert_eq
     | simpl; rewrite !lookup_insert_ne by congruence; exact Ha].
  simpl. unfold bind at 1.
  erewrite (move_assign_owned v this temp _ nullptr Y (moved_from da) db);
    [| congruence
     | simpl; apply lookup_insert_eq
     | simpl; rewrite !lookup_insert_ne by congruence; apply lookup_insert_eq].
  simpl.
  erewrite destroy_null; [| simpl; apply lookup_insert_eq | reflexivity].
  simpl. rewrite !app_nil_r. do 3 f_equal. same_map.
Qed.

(** Swapping a handle with itself restores it. *)
Lemma Swap_self_owned (v : variant) this st X da :
  handles st !! this = Some (Handle X (Owned da)) ->
  Swap moved_from default_d v this this st = Some (tt, st).
Proof.
  intros Ha. unfold Swap. unfold bind at 1.
  pose proof (fresh_not_live st) as Hf.
  set (temp := fresh (dom (handles st))) in *.
  assert (Hta : temp <> this) by (intros E; rewrite E, Ha in Hf; discriminate).
  unfold bind at 1. rewrite (move_ctor_owned v _ _ _ _ _ Hf Ha).
  unfold bind at 1. rewrite move_assign_same_address.
  unfold bind at 1.
  erewrite (move_assign_owned v this temp _ nullptr X (moved_from da) da);
    [| congruence
     | simpl; apply lookup_insert_eq
     | simpl; rewrite !lookup_insert_ne by congruence; apply lookup_insert_eq].
  simpl.
  erewrite destroy_null; [| simpl; apply lookup_insert_eq | reflexivity].
  simpl. rewrite !app_nil_r. destruct st as [hs ds cs]. simpl in *. do 2 f_equal.
  f_equal. same_map.
Qed.

(** Reference-typed releasers, primary template: the pointers change
    places, neither reference is rebound, and both releaser objects end
    up with the value the object of [this] had. *)
Lemma Swap_ref_overwrites this other st X Y x y dx dy :
  this <> other ->
  handles st !! this = Some (Handle X (RefTo x)) ->
  handles st !! other = Some (Handle Y (RefTo y)) ->
  deleters st !! x = Some dx ->
  deleters st !! y = Some dy ->
  Swap moved_from default_d Scalar this other st
  = Some (tt, State (<[this := Handle Y (RefTo x)]>
                       (<[other := Handle X (RefTo y)]> (handles st)))
                    (<[x := dx]> (<[y := dx]> (deleters st))) (calls st)).
Proof.
  intros Hne Ha Hb Hx Hy. unfold Swap. unfold bind at 1.
  pose proof (fresh_not_live st) as Hf.
  set (temp := fresh (dom (handles st))) in *.
  assert (Hta : temp <> this) by (intros E; rewrite E, Ha in Hf; discriminate).
  assert (Htb : temp <> other) by (intros E; rewrite E, Hb in Hf; discriminate).
  unfold bind at 1. rewrite (move_ctor_scalar_live _ _ _ _ Hf Hb).
  unfold bind at 1. simpl.
  erewrite (move_assign_ref Scalar other this _ nullptr X y x dy dx);
    [| congruence
     | simpl; rewrite lookup_insert_ne by congruence; apply lookup_insert_eq
     | simpl; rewrite !lookup_insert_ne by congruence; exact Ha
     | exact Hy | exact Hx].
  simpl. unfold bind at 1.
  erewrite (move_assign_ref Scalar this temp _ nullptr Y x y dx dx);
    [| congruence
     | simpl; rewrite lookup_insert_ne by congruence; apply lookup_insert_eq
     | simpl; rewrite !lookup_insert_ne by congruence; apply lookup_insert_eq
     | simpl; rewrite lookup_insert; case_decide; congruence
     | simpl; apply lookup_insert_eq].
  simpl.
  erewrite destroy_null;
    [| simpl; rewrite lookup_insert_ne by congruence; apply lookup_insert_eq
     | reflexivity].
  simpl. rewrite !app_nil_r. do 2 f_equal. f_equal. same_map.
Qed.

Lemma Swap_self_ref this st X x dx :
  handles st !! this = Some (Handle X (RefTo x)) ->
  deleters st !! x = Some dx ->
  Swap moved_from default_d Scalar this this st = Some (tt, st).
Proof.
  intros Ha Hx. unfold Swap. unfold bind at 1.
  pose proof (fresh_not_live st) as Hf.
  set (temp := fresh (dom (handles st))) in *.
  assert (Hta : temp <> this) by (intros E; rewrite E, Ha in Hf; discriminate).
  unfold bind at 1. rewrite (move_ctor_scalar_live _ _ _ _ Hf Ha).
  unfold bind at 1. rewrite move_assign_same_address.
  unfold bind at 1. simpl.
  erewrite (move_assign_ref Scalar this temp _ nullptr X x x dx dx);
    [| congruence
     | simpl; rewrite lookup_insert_ne by congruence; apply lookup_insert_eq
     | simpl; apply lookup_insert_eq
     | exact Hx | exact Hx].
  simpl.
  erewrite destroy_null;
    [| simpl; rewrite lookup_insert_ne by congruence; apply lookup_insert_eq
     | reflexivity].
  simpl. rewrite !app_nil_r. destruct st as [hs ds cs]. simpl in *. do 2 f_equal.
  f_equal; same_map.
Qed.

(** C5. Two distinct handles of the primary template whose releaser type is
    a reference: [Swap] exchanges the pointers and runs no releaser, but the
    releasers are not exchanged.  Each handle stays bound to its own releaser
    object, and both objects are left with the value the releaser of [this]
    had, so the prior releaser of [other] is lost. *)
Theorem Swap_reference_releasers_not_exchanged this other st X Y x y dx dy :
  this <> other ->
  handles st !! this = Some (Handle X (RefTo x)) ->
  handles st !! other = Some (Handle Y (RefTo y)) ->
  deleters st !! x = Some dx ->
  deleters st !! y = Some dy ->
  exists st',
    Swap moved_from default_d Scalar this other st = Some (tt, st') /\
    Get this st' = Some (Y, st') /\
    Get other st' = Some (X, st') /\
    (let* s := GetDeleter this in deleter_of s) st' = Some (dx, st') /\
    (let* s := GetDeleter other in deleter_of s) st' = Some (dx, st') /\
    calls st' = calls st.
Proof.
  intros Hne Ha Hb Hx Hy. eexists.
  split; [exact (Swap_ref_overwrites _ _ _ _ _ _ _ _ _ Hne Ha Hb Hx Hy) |].
  unfold Get, GetDeleter, deleter_of, bind, load, ret. simpl.
  rewrite lookup_insert_eq, lookup_insert_ne by exact Hne.
  rewrite !lookup_insert_eq. simpl. rewrite lookup_insert_eq.
  rewrite lookup_insert. case_decide; [| rewrite lookup_insert_eq]; repeat split.
Qed.

Lemma spec_index_live this i st h :
  handles st !! this = Some h ->
  spec_index this i st = Some (_ptr h + i, st).
Proof.
  intros H. unfold spec_index, subscript, bind, ret.
  rewrite (Get_live _ _ _ H). reflexivity.
Qed.

(** C2. The array specialisation declares neither dereference nor arrow,
    and its indexing operator subscripts the name of the member function
    [Get] instead of the pointer [Get()] returns: it has no instance for any
    handle and any index, so no element is ever designated. *)
Theorem operator_index_subscripts_member_name this (i : N) st :
  operator_index this i st = None /\
  @declares Array op_star = false /\
  @declares Array op_arrow = false /\
  @declares Array op_index = true.
Proof. repeat split. Qed.


(** ** Further properties of the member functions *)

Lemma released_app (cs1 cs2 : list (call D)) :
  released (cs1 ++ cs2) = released cs1 ++ released cs2.
Proof. unfold released. apply map_app. Qed.

Lemma destroy_live this st h d :
  handles st !! this = Some h ->
  deleter_of (_d h) st = Some (d, st) ->
  destroy this st
  = Some (tt, State (delete this (handles st)) (deleters st)
                    (calls st ++
                     if non_null (_ptr h) then [Call d (_ptr h) (handles st)] else [])).
Proof.
  intros H Hd. unfold destroy, bind. rewrite (load_live _ _ _ H).
  destruct (non_null (_ptr h)).
  - rewrite (invoke_live _ _ _ _ _ H Hd). reflexivity.
  - unfold ret. rewrite app_nil_r. reflexivity.
Qed.

(** X1. [Reset(p)], in both variants: afterwards [Get()] is [p] and the
    stored releaser is the same; the releaser has run exactly once, on the
    pointer held before, when that pointer was not null, and not at all
    otherwise; no other handle and no releaser object has changed. *)
Theorem Reset_installs_and_releases_old (v : variant) this st h d p :
  handles st !! this = Some h ->
  deleter_of (_d h) st = Some (d, st) ->
  exists st',
    Reset v this p st = Some (tt, st') /\
    Get this st' = Some (p, st') /\
    GetDeleter this st' = Some (_d h, st') /\
    released (calls st')
    = released (calls st) ++ (if non_null (_ptr h) then [(d, _ptr h)] else []) /\
    deleters st' = deleters st /\
    (forall other, other <> this -> handles st' !! other = handles st !! other).
Proof.
  intros H Hd. eexists. split; [exact (Reset_live v _ _ _ _ p H Hd) |].
  unfold Get, GetDeleter, bind, load, ret. simpl. rewrite lookup_insert_eq. simpl.
  split; [reflexivity |]. split; [reflexivity |].
  split; [rewrite released_app; destruct (non_null (_ptr h)); reflexivity |].
  split; [reflexivity |].
  intros other Hne. apply lookup_insert_ne. congruence.
Qed.

(** X2. Giving back to a handle, with [Reset], the pointer [Release()] has
    just returned restores the handle exactly and runs no releaser. *)
Theorem Release_then_Reset_restores (v : variant) this st h :
  handles st !! this = Some h ->
  (let* p := Release this in Reset v this p) st = Some (tt, st).
Proof.
  intros H. unfold bind at 1. rewrite (Release_live _ _ _ H).
  erewrite (Reset_null _ _ (Handle nullptr (_d h)));
    [| simpl; apply lookup_insert_eq | reflexivity].
  simpl. rewrite insert_insert_eq.
  destruct st as [hs ds cs], h as [ph dh]. simpl in *.
  rewrite (insert_id hs this _ H). reflexivity.
Qed.

(** X3. A handle emptied by [Release()] is destroyed without any releaser
    call: the caller has taken the resource over. *)
Theorem Release_then_destroy_releases_nothing this st h :
  handles st !! this = Some h ->
  (let* p := Release this in destroy this ;;; ret p) st
  = Some (_ptr h, State (delete this (handles st)) (deleters st) (calls st)).
Proof.
  intros H. unfold bind at 1. rewrite (Release_live _ _ _ H).
  unfold bind at 1.
  erewrite (destroy_null _ _ (Handle nullptr (_d h)));
    [| simpl; apply lookup_insert_eq | reflexivity].
  unfold ret. simpl. rewrite delete_insert_eq. reflexivity.
Qed.

(** X4. Assigning [nullptr] before the handle dies changes nothing about
    what is released: the resource is released once, by the assignment
    instead of by the destructor, and the same handles remain. *)
Theorem assign_nullptr_then_destroy_releases_once (v : variant) this st h d :
  handles st !! this = Some h ->
  deleter_of (_d h) st = Some (d, st) ->
  exists st1 st2,
    (assign_nullptr v this ;;; destroy this) st = Some (tt, st1) /\
    destroy this st = Some (tt, st2) /\
    handles st1 = handles st2 /\
    deleters st1 = deleters st2 /\
    released (calls st1) = released (calls st2) /\
    released (calls st1)
    = released (calls st) ++ (if non_null (_ptr h) then [(d, _ptr h)] else []).
Proof.
  intros H Hd. do 2 eexists.
  split.
  { unfold assign_nullptr, bind. rewrite (Reset_live v _ _ _ _ nullptr H Hd).
    erewrite (destroy_null _ _ (Handle nullptr (_d h)));
      [reflexivity | simpl; apply lookup_insert_eq | reflexivity]. }
  split; [exact (destroy_live _ _ _ _ H Hd) |].
  simpl. rewrite delete_insert_eq, !released_app.
  destruct (non_null (_ptr h)); repeat split.
Qed.

(** X5. The conversion to [bool] tells whether the destructor will release:
    destroying the handle runs the releaser once, on the stored pointer,
    exactly when the conversion gives [true]. *)
Theorem operator_bool_tells_whether_destroy_releases this st h d :
  handles st !! this = Some h ->
  deleter_of (_d h) st = Some (d, st) ->
  exists b st',
    operator_bool this st = Some (b, st) /\
    destroy this st = Some (tt, st') /\
    released (calls st') = released (calls st) ++ (if b then [(d, _ptr h)] else []).
Proof.
  intros H Hd. do 2 eexists.
  split; [unfold operator_bool, bind, ret; rewrite (Get_live _ _ _ H); reflexivity |].
  split; [exact (destroy_live _ _ _ _ H Hd) |].
  simpl. rewrite released_app. destruct (non_null (_ptr h)); reflexivity.
Qed.

(** X6. Two distinct live handles that were given the same non-null raw
    pointer both release it: nothing detects the aliasing, and destroying
    the two handles runs a releaser on that pointer twice. *)
Theorem aliased_pointer_is_released_twice this other st p (s1 s2 : deleter_slot D) d1 d2 :
  this <> other ->
  p <> nullptr ->
  handles st !! this = Some (Handle p s1) ->
  handles st !! other = Some (Handle p s2) ->
  deleter_of s1 st = Some (d1, st) ->
  deleter_of s2 st = Some (d2, st) ->
  exists st',
    (destroy this ;;; destroy other) st = Some (tt, st') /\
    released (calls st') = released (calls st) ++ [(d1, p); (d2, p)].
Proof.
  intros Hne Hp Ha Hb Hd1 Hd2. eexists. split.
  - unfold bind. rewrite (destroy_live _ _ _ _ Ha Hd1).
    erewrite (destroy_live _ _ (Handle p s2) d2);
      [reflexivity
      | simpl; rewrite lookup_delete_ne by exact Hne; exact Hb
      | apply (deleter_of_frame _ st); exact Hd2].
  - simpl. rewrite (non_null_true _ Hp), !released_app, <- app_assoc. reflexivity.
Qed.

(** X7. Releasers stored by value: after [a.Swap(b)] on two distinct handles
    each observes what the other held, pointer and releaser; no releaser has
    run, no other handle has changed and the temporary is gone. *)
Theorem Swap_exchanges_pointers_and_releasers (v : variant) this other st X Y da db :
  this <> other ->
  handles st !! this = Some (Handle X (Owned da)) ->
  handles st !! other = Some (Handle Y (Owned db)) ->
  exists st',
    Swap moved_from default_d v this other st = Some (tt, st') /\
    Get this st' = Some (Y, st') /\
    GetDeleter this st' = Some (Owned db, st') /\
    Get other st' = Some (X, st') /\
    GetDeleter other st' = Some (Owned da, st') /\
    calls st' = calls st /\
    deleters st' = deleters st /\
    dom (handles st') = dom (handles st) /\
    (forall k, k <> this -> k <> other -> handles st' !! k = handles st !! k).
Proof.
  intros Hne Ha Hb. eexists.
  split; [exact (Swap_owned_exchanges v _ _ _ _ _ _ _ Hne Ha Hb) |].
  unfold Get, GetDeleter, bind, load, ret. simpl.
  rewrite lookup_insert_eq, lookup_insert_ne by exact Hne.
  rewrite lookup_insert_eq. simpl. do 6 (split; [reflexivity |]).
  split.
  - apply set_eq. intros k. rewrite !elem_of_dom, !lookup_insert.
    repeat case_decide; subst; rewrite ?Ha, ?Hb; split; eauto.
  - intros k Hk1 Hk2. rewrite !lookup_insert_ne by congruence. reflexivity.
Qed.

(** X8. Releasers stored by value: swapping two distinct handles twice
    gives back the state before the first swap. *)
Theorem Swap_twice_restores (v : variant) this other st X Y da db :
  this <> other ->
  handles st !! this = Some (Handle X (Owned da)) ->
  handles st !! other = Some (Handle Y (Owned db)) ->
  (Swap moved_from default_d v this other ;;;
   Swap moved_from default_d v this other) st = Some (tt, st).
Proof.
  intros Hne Ha Hb. unfold bind.
  rewrite (Swap_owned_exchanges v _ _ _ _ _ _ _ Hne Ha Hb).
  erewrite (Swap_owned_exchanges v this other _ Y X db da);
    [| exact Hne
     | simpl; apply lookup_insert_eq
     | simpl; rewrite lookup_insert_ne by exact Hne; apply lookup_insert_eq].
  simpl. destruct st as [hs ds cs]. simpl in *. do 2 f_equal. f_equal. same_map.
Qed.

(** X9. Swapping a handle with itself leaves the whole state as it was, for
    a releaser stored by value in both variants and for a reference releaser
    in the primary template. *)
Theorem Swap_with_itself_is_noop (v : variant) this st h d :
  handles st !! this = Some h ->
  deleter_of (_d h) st = Some (d, st) ->
  (v = Array -> exists d', _d h = Owned d') ->
  Swap moved_from default_d v this this st = Some (tt, st).
Proof.
  intros H Hd Hv. destruct h as [X [da|x]]; simpl in *.
  - exact (Swap_self_owned v _ _ _ _ H).
  - destruct v.
    + unfold deleter_of in Hd.
      destruct (deleters st !! x) as [dx|] eqn:Hx; [| discriminate].
      exact (Swap_self_ref _ _ _ _ _ H Hx).
    + destruct Hv as [d' Hd']; [reflexivity | discriminate].
Qed.

(** X10. Ownership moves with the move constructor: when both the new
    handle and the moved-from one have died, the resource has been released
    exactly once (not at all if the source was empty), by the releaser the
    source had. *)
Theorem move_ctor_then_destroy_both_releases_once (v : variant) this r st hr d :
  handles st !! r = Some hr ->
  handles st !! this = None ->
  deleter_of (_d hr) st = Some (d, st) ->
  (v = Array -> exists d', _d hr = Owned d') ->
  exists st',
    (move_ctor moved_from default_d v this r ;;; destroy r ;;; destroy this) st
    = Some (tt, st') /\
    released (calls st')
    = released (calls st) ++ (if non_null (_ptr hr) then [(d, _ptr hr)] else []) /\
    handles st' = delete r (handles st) /\
    deleters st' = deleters st.
Proof.
  intros Hr Ht Hd Hv.
  assert (Hne : this <> r) by (intros ->; rewrite Hr in Ht; discriminate).
  destruct hr as [pr [dr|y]]; simpl in *.
  - injection Hd as ->. eexists. split.
    + unfold bind at 1. rewrite (move_ctor_owned v _ _ _ _ _ Ht Hr).
      unfold bind at 1.
      erewrite (destroy_null _ _ (Handle nullptr (Owned (moved_from d))));
        [| simpl; apply lookup_insert_eq | reflexivity].
      erewrite (destroy_live _ _ (Handle pr (Owned d)) d);
        [reflexivity
        | simpl; rewrite lookup_delete_ne by congruence;
          rewrite lookup_insert_ne by congruence; apply lookup_insert_eq
        | reflexivity].
    + simpl. rewrite released_app.
      split; [destruct (non_null pr); reflexivity |].
      split; [same_map | reflexivity].
  - destruct v; [| destruct Hv as [d' Hd']; [reflexivity | discriminate]].
    unfold deleter_of in Hd.
    destruct (deleters st !! y) as [dy|] eqn:Hy; [| discriminate].
    injection Hd as ->. eexists. split.
    + unfold bind at 1. rewrite (move_ctor_scalar_live _ _ _ _ Ht Hr).
      unfold bind at 1. simpl.
      erewrite (destroy_null _ _ (Handle nullptr (RefTo y)));
        [| simpl; rewrite lookup_insert_ne by congruence; apply lookup_insert_eq
         | reflexivity].
      erewrite (destroy_live _ _ (Handle pr (RefTo y)) d);
        [reflexivity
        | simpl; rewrite lookup_delete_ne by congruence; apply lookup_insert_eq
        | unfold deleter_of; simpl; rewrite Hy; reflexivity].
    + simpl. rewrite released_app.
      split; [destruct (non_null pr); reflexivity |].
      split; [same_map | reflexivity].
Qed.

(** X11. Move assignment between two distinct handles, followed by the
    death of both: each of the two resources has been released exactly once
    (an empty handle contributes nothing), the destination's old resource by
    the destination's old releaser during the assignment, the transferred
    one by the transferred releaser. *)
Theorem move_assign_then_destroy_both_releases_each_once
    (v : variant) this r st ht hr dt dr :
  this <> r ->
  handles st !! this = Some ht ->
  handles st !! r = Some hr ->
  same_deleter_type (_d ht) (_d hr) = true ->
  deleter_of (_d ht) st = Some (dt, st) ->
  deleter_of (_d hr) st = Some (dr, st) ->
  exists st',
    (move_assign moved_from v this r ;;; destroy this ;;; destroy r) st
    = Some (tt, st') /\
    released (calls st')
    = released (calls st)
      ++ (if non_null (_ptr ht) then [(dt, _ptr ht)] else [])
      ++ (if non_null (_ptr hr) then [(dr, _ptr hr)] else []) /\
    handles st' = delete r (delete this (handles st)).
Proof.
  intros Hne Ht Hr Hs Hdt Hdr.
  destruct ht as [pt [dt0|x]], hr as [pr [dr0|y]]; simpl in *; try discriminate.
  - injection Hdt as ->. injection Hdr as ->. eexists. split.
    + unfold bind at 1. rewrite (move_assign_owned v _ _ _ _ _ _ _ Hne Ht Hr).
      unfold bind at 1.
      erewrite (destroy_live _ _ (Handle pr (Owned dr)) dr);
        [| simpl; rewrite lookup_insert_ne by congruence; apply lookup_insert_eq
         | reflexivity].
      erewrite (destroy_null _ _ (Handle nullptr (Owned (moved_from dr))));
        [reflexivity
        | simpl; rewrite lookup_delete_ne by congruence; apply lookup_insert_eq
        | reflexivity].
    + simpl. rewrite !released_app, <- app_assoc.
      split; [destruct (non_null pt), (non_null pr); reflexivity | same_map].
  - unfold deleter_of in Hdt, Hdr.
    destruct (deleters st !! x) as [dx|] eqn:Hx; [| discriminate].
    destruct (deleters st !! y) as [dy|] eqn:Hy; [| discriminate].
    injection Hdt as ->. injection Hdr as ->. eexists. split.
    + unfold bind at 1.
      rewrite (move_assign_ref v _ _ _ _ _ _ _ _ _ Hne Ht Hr Hx Hy).
      unfold bind at 1.
      erewrite (destroy_live _ _ (Handle pr (RefTo x)) dr);
        [| simpl; apply lookup_insert_eq
         | unfold deleter_of; simpl; rewrite lookup_insert_eq; reflexivity].
      erewrite (destroy_null _ _ (Handle nullptr (RefTo y)));
        [reflexivity
        | simpl; rewrite lookup_delete_ne by congruence;
          rewrite lookup_insert_ne by congruence; apply lookup_insert_eq
        | reflexivity].
    + simpl. rewrite !released_app, <- app_assoc.
      split; [destruct (non_null pt), (non_null pr); reflexivity | same_map].
Qed.

Lemma construct_live (v : variant) (I : instantiation) (c : ctor D) this st h0 :
  requires is_array_convertible is_convertible_v v I c = true ->
  initial_members default_d c = Some h0 ->
  handles st !! this = None ->
  construct default_d is_array_convertible is_convertible_v v I c this st
  = Some (tt, State (<[this := h0]> (handles st)) (deleters st) (calls st)).
Proof.
  intros Hreq Hh Hnone. unfold construct. rewrite Hreq, Hh.
  unfold bind, not_live, store. rewrite Hnone. reflexivity.
Qed.

(** X12. An available, non-deleted constructor run at a free address gives
    a handle whose [Get()] is the pointer argument (null for the default
    and [nullptr] constructors) and whose releaser is the one supplied, a
    default-built one if none was; it runs no releaser and touches no other
    handle. *)
Theorem construct_stores_its_arguments
    (v : variant) (I : instantiation) (c : ctor D) this st h0 :
  requires is_array_convertible is_convertible_v v I c = true ->
  initial_members default_d c = Some h0 ->
  handles st !! this = None ->
  exists st',
    construct default_d is_array_convertible is_convertible_v v I c this st = Some (tt, st') /\
    Get this st'
    = Some (match pointer_argument c with
            | Some a => as_pointer a
            | None => nullptr
            end, st') /\
    GetDeleter this st'
    = Some (match supplied_deleter c with
            | Some s => s
            | None => Owned default_d
            end, st') /\
    calls st' = calls st /\
    deleters st' = deleters st /\
    (forall other, other <> this -> handles st' !! other = handles st !! other).
Proof.
  intros Hreq Hh Hnone. eexists.
  split; [exact (construct_live v I c _ _ _ Hreq Hh Hnone) |].
  unfold Get, GetDeleter, bind, load, ret. simpl. rewrite lookup_insert_eq. simpl.
  split; [destruct c; simpl in *; try discriminate; injection Hh as <-; reflexivity |].
  split; [destruct c; simpl in *; try discriminate; injection Hh as <-; reflexivity |].
  do 2 (split; [reflexivity |]).
  intros other Hne. apply lookup_insert_ne. congruence.
Qed.

(** X13. A handle built and then destroyed leaves the handles as they were
    before and has released the pointer it was built from exactly once,
    with the releaser it was built with; built from a null pointer it
    releases nothing. *)
Theorem construct_then_destroy_releases_argument
    (v : variant) (I : instantiation) (c : ctor D) this st h0 d :
  requires is_array_convertible is_convertible_v v I c = true ->
  initial_members default_d c = Some h0 ->
  handles st !! this = None ->
  deleter_of (_d h0) st = Some (d, st) ->
  exists st',
    (construct default_d is_array_convertible is_convertible_v v I c this ;;; destroy this) st
    = Some (tt, st') /\
    handles st' = handles st /\
    deleters st' = deleters st /\
    released (calls st')
    = released (calls st) ++ (if non_null (_ptr h0) then [(d, _ptr h0)] else []).
Proof.
  intros Hreq Hh Hnone Hd. eexists. split.
  - unfold bind. rewrite (construct_live v I c _ _ _ Hreq Hh Hnone).
    erewrite (destroy_live _ _ h0 d);
      [reflexivity | simpl; apply lookup_insert_eq
      | apply (deleter_of_frame _ st); exact Hd].
  - simpl. rewrite released_app.
    split; [same_map |]. split; [reflexivity |].
    destruct (non_null (_ptr h0)); reflexivity.
Qed.

(** X14. The constructors that store a releaser by value and the one that
    binds a reference never coexist in one instantiation, and the overload
    taking an rvalue of the underlying releaser type never builds a
    handle. *)
Theorem value_and_reference_constructors_exclude
    (v : variant) (I : instantiation) (a1 a2 a3 : ptr_arg) (d1 d2 d3 : D) (r : N) this st :
  (requires is_array_convertible is_convertible_v v I (ctor_ptr_cref a1 d1) = true \/
   requires is_array_convertible is_convertible_v v I (ctor_ptr_rref a1 d1) = true ->
   requires is_array_convertible is_convertible_v v I (ctor_ptr_ref a2 r : ctor D) = false /\
   requires is_array_convertible is_convertible_v v I (ctor_ptr_noref_rvalue a2 d2) = false) /\
  (requires is_array_convertible is_convertible_v v I (ctor_ptr_ref a2 r : ctor D) = true ->
   requires is_array_convertible is_convertible_v v I (ctor_ptr_cref a1 d1) = false /\
   requires is_array_convertible is_convertible_v v I (ctor_ptr_rref a1 d1) = false) /\
  construct default_d is_array_convertible is_convertible_v v I (ctor_ptr_noref_rvalue a3 d3) this st = None.
Proof.
  split; [| split].
  - unfold requires, deleter_requirement.
    destruct (Dx.is_lvalue_reference_v (deleter_type I)); simpl.
    + intros [H|H]; discriminate.
    + intros _. split; reflexivity.
  - unfold requires, deleter_requirement.
    destruct (Dx.is_lvalue_reference_v (deleter_type I)); simpl.
    + intros _. split; reflexivity.
    + intros H. discriminate.
  - unfold construct. simpl.
    destruct (@requires D is_array_convertible is_convertible_v v I (ctor_ptr_noref_rvalue a3 d3));
      reflexivity.
Qed.

(** X15. The pointer types the array specialisation takes.  Whatever
    [Reset(U)] accepts the constructors accept, and both accept [pointer]
    itself.  When the releaser names a [pointer] of its own that is not
    [element_type*], no conversion is admitted: [Reset] takes exactly
    [pointer], the constructors exactly [pointer] and [std::nullptr_t].  A
    [U] that is neither a pointer type nor [pointer] is refused by
    [Reset]. *)
Theorem array_pointer_rules (P E U : ty) :
  (reset_pointer_rule is_array_convertible P E U = true ->
   ctor_pointer_rule is_array_convertible P E U = true) /\
  reset_pointer_rule is_array_convertible P E P = true /\
  ctor_pointer_rule is_array_convertible P E P = true /\
  (P <> PointerTo E ->
   (reset_pointer_rule is_array_convertible P E U = true <-> U = P) /\
   (ctor_pointer_rule is_array_convertible P E U = true <-> U = P \/ U = nullptr_t)) /\
  (is_pointer_v U = false -> U <> P ->
   reset_pointer_rule is_array_convertible P E U = false).
Proof.
  unfold ctor_pointer_rule, reset_pointer_rule, array_conversion_rule, is_same_v.
  split; [| split; [| split; [| split]]].
  - intros H. apply orb_true_iff in H as [H|H].
    + rewrite H. reflexivity.
    + rewrite H. apply orb_true_r.
  - rewrite bool_decide_eq_true_2 by reflexivity. reflexivity.
  - rewrite bool_decide_eq_true_2 by reflexivity. reflexivity.
  - intros HP. rewrite (bool_decide_eq_false_2 (P = PointerTo E)) by exact HP.
    simpl. rewrite !orb_false_r. split.
    + apply bool_decide_eq_true.
    + rewrite orb_true_iff, !bool_decide_eq_true. reflexivity.
  - intros HU HUP. rewrite HU, andb_false_r. simpl.
    rewrite bool_decide_eq_false_2 by exact HUP. reflexivity.
Qed.

(** X16. The converting constructor never builds a scalar handle from an
    array handle nor an array handle from a scalar one, and the array
    converting assignment refuses a scalar source.  The scalar converting
    assignment has no such test: it takes an array handle as soon as the
    pointer types convert and the releaser is assignable. *)
Theorem converting_moves_between_variants (I : instantiation) (c : conversion) :
  (source_variant c = Array ->
   converting_ctor_requires is_array_convertible is_convertible_v Scalar I c = false) /\
  (source_variant c = Scalar ->
   converting_ctor_requires is_array_convertible is_convertible_v Array I c = false /\
   converting_assign_requires is_array_convertible is_convertible_v Array I c = false) /\
  (source_variant c = Array ->
   is_convertible_v (pointer (source c)) (pointer I) = true ->
   deleter_assignable c = true ->
   converting_assign_requires is_array_convertible is_convertible_v Scalar I c = true).
Proof.
  unfold converting_ctor_requires, converting_assign_requires, array_source_rule,
    is_array_v.
  split; [| split].
  - intros ->. simpl. rewrite andb_false_r. reflexivity.
  - intros ->. simpl. split; reflexivity.
  - intros _ -> ->. reflexivity.
Qed.

Lemma assign_forwarded_deleter_live this r st ht hr dt dr :
  this <> r ->
  handles st !! this = Some ht ->
  handles st !! r = Some hr ->
  deleter_of (_d ht) st = Some (dt, st) ->
  deleter_of (_d hr) st = Some (dr, st) ->
  exists st',
    assign_forwarded_deleter moved_from this r st = Some (tt, st') /\
    handles st'
    = <[r := Handle (_ptr hr) (slot_after_forward moved_from (_d hr))]>
        (<[this := Handle (_ptr ht) (slot_after_assign (_d ht) dr)]> (handles st)) /\
    deleter_of (slot_after_assign (_d ht) dr) st' = Some (dr, st') /\
    calls st' = calls st /\
    deleters st'
    = match _d ht with
      | Owned _ => deleters st
      | RefTo x => <[x := dr]> (deleters st)
      end.
Proof.
  intros Hne Ht Hr Hdt Hdr. unfold assign_forwarded_deleter, bind.
  rewrite (load_live _ _ _ Hr), Hdr, (load_live _ _ _ Ht).
  destruct ht as [pt [dt0|x]], hr as [pr [dr0|y]]; simpl in *.
  - injection Hdr as ->. unfold load. simpl.
    rewrite lookup_insert_ne by exact Hne. rewrite Hr.
    eexists. repeat split.
  - unfold ret. eexists. split; [reflexivity |]. simpl.
    split; [| repeat split].
    symmetry. apply insert_id. rewrite lookup_insert_ne by exact Hne. exact Hr.
  - injection Hdr as ->. unfold deleter_of in Hdt.
    destruct (deleters st !! x) as [dx|] eqn:Hx; [| discriminate].
    unfold load. simpl. rewrite Hr. eexists. split; [reflexivity |]. simpl.
    split; [| split; [rewrite lookup_insert_eq; reflexivity | split; reflexivity]].
    rewrite (insert_id (handles st) this _ Ht). reflexivity.
  - unfold deleter_of in Hdt.
    destruct (deleters st !! x) as [dx|] eqn:Hx; [| discriminate].
    unfold ret. eexists. split; [reflexivity |]. simpl.
    split; [| split; [rewrite lookup_insert_eq; reflexivity | split; reflexivity]].
    rewrite (insert_id (handles st) this _ Ht).
    symmetry. apply insert_id. exact Hr.
Qed.

(** X17. The converting move constructor, where its constraint holds.  If
    [deleter_type] is no reference, is default-constructible and is
    assignable from the source's releaser, the source is left empty, the
    new handle holds the pointer and the releaser the source had, and no
    releaser has run.  If [deleter_type] is a reference, or is not
    default-constructible, or is not assignable from the source's releaser,
    the constructor has no instance, although its constraint holds. *)
Theorem converting_move_ctor_transfers
    (v : variant) (I : instantiation) (c : conversion) this r st hr d :
  converting_ctor_requires is_array_convertible is_convertible_v v I c = true ->
  handles st !! this = None ->
  handles st !! r = Some hr ->
  deleter_of (_d hr) st = Some (d, st) ->
  (Dx.is_lvalue_reference_v (deleter_type I) = false ->
   Dx.is_default_constructible_v (deleter_type I) = true ->
   deleter_assignable c = true ->
   exists st',
     converting_move_ctor moved_from default_d is_array_convertible is_convertible_v
       v I c this r st = Some (tt, st') /\
     Get r st' = Some (nullptr, st') /\
     Get this st' = Some (_ptr hr, st') /\
     GetDeleter this st' = Some (Owned d, st') /\
     calls st' = calls st) /\
  (Dx.is_lvalue_reference_v (deleter_type I) = true \/
   Dx.is_default_constructible_v (deleter_type I) = false \/
   deleter_assignable c = false ->
   converting_move_ctor moved_from default_d is_array_convertible is_convertible_v
     v I c this r st = None).
Proof.
  intros Hreq Ht Hr Hd.
  assert (Hne : this <> r) by (intros ->; rewrite Hr in Ht; discriminate).
  unfold converting_move_ctor. rewrite Hreq. split.
  2: { intros [-> | [-> | ->]]; simpl; rewrite ?orb_true_r; reflexivity. }
  intros -> -> ->. simpl.
  unfold bind at 1. unfold not_live. rewrite Ht.
  unfold bind at 1. rewrite (load_live _ _ _ Hr).
  unfold bind at 1. unfold store at 1.
  unfold bind at 1.
  erewrite Release_live by (simpl; rewrite lookup_insert_ne by exact Hne; exact Hr).
  unfold bind at 1.
  erewrite write_ptr_live
    by (simpl; rewrite lookup_insert_ne by congruence; apply lookup_insert_eq).
  simpl.
  edestruct (assign_forwarded_deleter_live this r
               (State (<[this := Handle (_ptr hr) (Owned default_d)]>
                         (<[r := Handle nullptr (_d hr)]>
                            (<[this := Handle nullptr (Owned default_d)]> (handles st))))
                      (deleters st) (calls st))
               (Handle (_ptr hr) (Owned default_d)) (Handle nullptr (_d hr))
               default_d d) as (st' & Hrun & Hhs & _ & Hcs & _).
  - exact Hne.
  - simpl. apply lookup_insert_eq.
  - simpl. rewrite lookup_insert_ne by exact Hne. apply lookup_insert_eq.
  - reflexivity.
  - simpl. apply (deleter_of_frame _ st). exact Hd.
  - simpl in Hhs, Hcs. exists st'. split; [exact Hrun |].
    unfold Get, GetDeleter, bind, load, ret. rewrite Hhs.
    rewrite lookup_insert_eq, lookup_insert_ne by congruence.
    rewrite lookup_insert_eq. simpl.
    do 3 (split; [reflexivity |]). exact Hcs.
Qed.

(** X18. The converting move assignment between two distinct handles, where
    it is available and the destination stores its releaser by value (the
    source stores it by value, or refers to a releaser object outside the
    handles): the source is left empty, the destination holds the source's
    pointer and the source's releaser, and the releaser the destination had
    has run exactly once on the pointer it held, if that was not null. *)
Theorem converting_move_assign_transfers
    (v : variant) (I : instantiation) (c : conversion) this r st pt dt hr dr :
  converting_assign_requires is_array_convertible is_convertible_v v I c = true ->
  this <> r ->
  handles st !! this = Some (Handle pt (Owned dt)) ->
  handles st !! r = Some hr ->
  deleter_of (_d hr) st = Some (dr, st) ->
  exists st',
    converting_move_assign moved_from is_array_convertible is_convertible_v
      v I c this r st = Some (tt, st') /\
    Get r st' = Some (nullptr, st') /\
    Get this st' = Some (_ptr hr, st') /\
    GetDeleter this st' = Some (Owned dr, st') /\
    released (calls st')
    = released (calls st) ++ (if non_null pt then [(dt, pt)] else []).
Proof.
  intros Hreq Hne Ht Hr Hdr.
  unfold converting_move_assign. rewrite Hreq.
  unfold bind at 1. rewrite (Release_live _ _ _ Hr).
  unfold bind at 1.
  erewrite (Reset_live v this _ (Handle pt (Owned dt)) dt);
    [| simpl; rewrite lookup_insert_ne by congruence; exact Ht | reflexivity].
  simpl.
  match goal with
  | |- exists st', assign_forwarded_deleter _ _ _ ?s = _ /\ _ =>
      edestruct (assign_forwarded_deleter_live this r s
                   (Handle (_ptr hr) (Owned dt)) (Handle nullptr (_d hr)) dt dr)
        as (st' & Hrun & Hhs & _ & Hcs & _)
  end.
  - exact Hne.
  - simpl. apply lookup_insert_eq.
  - simpl. rewrite lookup_insert_ne by exact Hne. apply lookup_insert_eq.
  - reflexivity.
  - simpl. apply (deleter_of_frame _ st). exact Hdr.
  - simpl in Hhs, Hcs. exists st'. split; [exact Hrun |].
    unfold Get, GetDeleter, bind, load, ret. rewrite Hhs.
    rewrite lookup_insert_eq, lookup_insert_ne by congruence.
    rewrite lookup_insert_eq. simpl.
    do 3 (split; [reflexivity |]).
    rewrite Hcs, released_app.
    destruct (non_null pt); reflexivity.
Qed.

(** X19. The constrained array [Reset(U p)]: with an argument of the
    handle's own [pointer] type it installs the argument and has released
    what the handle held exactly once, if that was not null; with an
    argument whose type is neither a pointer type nor [pointer] it has no
    instance. *)
Theorem Reset_U_takes_pointer_itself (I : instantiation) this (a : ptr_arg) st h d :
  handles st !! this = Some h ->
  deleter_of (_d h) st = Some (d, st) ->
  (arg_type a = pointer I ->
   exists st',
     Reset_U is_array_convertible I this a st = Some (tt, st') /\
     Get this st' = Some (as_pointer a, st') /\
     released (calls st')
     = released (calls st) ++ (if non_null (_ptr h) then [(d, _ptr h)] else [])) /\
  (is_pointer_v (arg_type a) = false -> arg_type a <> pointer I ->
   Reset_U is_array_convertible I this a st = None).
Proof.
  intros H Hd. split.
  - intros Ha. unfold Reset_U, reset_pointer_rule, is_same_v.
    rewrite bool_decide_eq_true_2 by exact Ha. simpl.
    eexists. split; [exact (Reset_live Array _ _ _ _ _ H Hd) |].
    unfold Get, bind, load, ret. simpl. rewrite lookup_insert_eq. simpl.
    split; [reflexivity |].
    rewrite released_app. destruct (non_null (_ptr h)); reflexivity.
  - intros Hp Hne. unfold Reset_U, reset_pointer_rule, array_conversion_rule, is_same_v.
    rewrite bool_decide_eq_false_2 by exact Hne.
    rewrite Hp, andb_false_r. reflexivity.
Qed.

(** ** What a handle can come to store *)

Section Releasers.

Variable good : D -> Prop.
Hypothesis good_moved_from : forall d, good d -> good (moved_from d).

Lemma preserves_ret {A} (a : A) (Q : A -> Prop) :
  Q a -> preserves good (ret a) Q.
Proof. intros HQ st a' st' Hinv [= <- <-]. split; assumption. Qed.

Lemma preserves_fail {A} (Q : A -> Prop) : preserves good fail Q.
Proof. intros st a st' _ Hrun. discriminate. Qed.

Lemma preserves_bind {A B} (m : M D A) (k : A -> M D B) (Q : A -> Prop) (R : B -> Prop) :
  preserves good m Q ->
  (forall a, Q a -> preserves good (k a) R) ->
  preserves good (bind m k) R.
Proof.
  intros Hm Hk st b st' Hinv Hrun. unfold bind in Hrun.
  destruct (m st) as [[a st1]|] eqn:E; [| discriminate].
  destruct (Hm _ _ _ Hinv E) as [Hinv1 HQ].
  exact (Hk a HQ _ _ _ Hinv1 Hrun).
Qed.

Lemma preserves_weaken {A} (m : M D A) (Q R : A -> Prop) :
  preserves good m Q -> (forall a, Q a -> R a) -> preserves good m R.
Proof.
  intros Hm HQR st a st' Hinv Hrun.
  destruct (Hm _ _ _ Hinv Hrun) as [H1 H2]. split; [exact H1 | apply HQR, H2].
Qed.

Lemma releasers_good_insert hs ds cs a h :
  releasers_good good (State hs ds cs) ->
  slot_good good (_d h) ->
  releasers_good good (State (<[a := h]> hs) ds cs).
Proof.
  intros (Hh & Hd & Hc) Hs. split; [| split; assumption].
  simpl. intros b h' Hb. rewrite lookup_insert in Hb.
  case_decide; [injection Hb as <-; exact Hs | exact (Hh _ _ Hb)].
Qed.

Lemma preserves_load this :
  preserves good (load this) (fun h => slot_good good (_d h)).
Proof.
  intros st h st' Hinv Hrun. unfold load in Hrun.
  destruct (handles st !! this) as [h'|] eqn:E; [| discriminate].
  injection Hrun as <- <-. split; [exact Hinv |].
  destruct Hinv as (Hh & _). exact (Hh _ _ E).
Qed.

Lemma preserves_store this h :
  slot_good good (_d h) -> preserves good (store this h) (fun _ => True).
Proof.
  intros Hs st a st' Hinv [= <- <-]. split; [| exact Logic.I].
  destruct st as [hs ds cs]. apply releasers_good_insert; assumption.
Qed.

Lemma preserves_deleter_of (s : deleter_slot D) :
  slot_good good s -> preserves good (deleter_of s) good.
Proof.
  intros Hs st d st' Hinv Hrun. unfold deleter_of in Hrun.
  destruct s as [d'|x].
  - injection Hrun as <- <-. split; assumption.
  - destruct (deleters st !! x) as [d'|] eqn:E; [| discriminate].
    injection Hrun as <- <-. split; [exact Hinv |].
    destruct Hinv as (_ & Hd & _). exact (Hd _ _ E).
Qed.

Lemma preserves_write_ptr this p :
  preserves good (write_ptr this p) (fun _ => True).
Proof.
  unfold write_ptr. eapply preserves_bind; [apply preserves_load |].
  intros h Hh. apply preserves_store. exact Hh.
Qed.

Lemma preserves_invoke this p :
  preserves good (invoke this p) (fun _ => True).
Proof.
  unfold invoke. eapply preserves_bind; [apply preserves_load |].
  intros h Hh. eapply preserves_bind; [apply preserves_deleter_of, Hh |].
  intros d Hd st a st' (H1 & H2 & H3) [= <- <-]. split; [| exact Logic.I].
  split; [exact H1 | split; [exact H2 |]]. simpl.
  apply Forall_app. split; [exact H3 |]. constructor; [exact Hd | constructor].
Qed.

Lemma preserves_release_if this (b : bool) p :
  preserves good (if b then invoke this p else ret tt) (fun _ => True).
Proof. destruct b; [apply preserves_invoke | apply preserves_ret; exact Logic.I]. Qed.

Lemma preserves_Release this :
  preserves good (Release this) (fun _ => True).
Proof.
  unfold Release. eapply preserves_bind; [apply preserves_load |].
  intros h Hh. eapply preserves_bind; [apply preserves_write_ptr |].
  intros _ _. apply preserves_ret. exact Logic.I.
Qed.

Lemma preserves_Reset (v : variant) this p :
  preserves good (Reset v this p) (fun _ => True).
Proof.
  destruct v; unfold Reset.
  - eapply preserves_bind; [apply preserves_load |]. intros h Hh.
    eapply preserves_bind; [apply preserves_write_ptr |]. intros _ _.
    apply preserves_release_if.
  - eapply preserves_bind; [apply preserves_load |]. intros h Hh.
    eapply preserves_bind; [apply preserves_release_if |]. intros _ _.
    apply preserves_write_ptr.
Qed.

Lemma preserves_destroy this :
  preserves good (destroy this) (fun _ => True).
Proof.
  unfold destroy. eapply preserves_bind; [apply preserves_load |]. intros h Hh.
  eapply preserves_bind; [apply preserves_release_if |]. intros _ _.
  intros st a st' (H1 & H2 & H3) [= <- <-]. split; [| exact Logic.I].
  split; [| split; assumption]. simpl. intros b h' Hb.
  rewrite lookup_delete in Hb. case_decide; [discriminate | exact (H1 _ _ Hb)].
Qed.

Lemma preserves_assign_deleter this r :
  preserves good (assign_deleter moved_from this r) (fun _ => True).
Proof.
  unfold assign_deleter. eapply preserves_bind; [apply preserves_load |]. intros hr Hhr.
  eapply preserves_bind; [apply preserves_load |]. intros ht Hht.
  simpl in Hhr, Hht.
  destruct (_d ht) as [dt|x], (_d hr) as [dr|y]; try apply preserves_fail.
  - eapply preserves_bind; [apply preserves_store; exact Hhr |]. intros _ _.
    eapply preserves_bind; [apply preserves_load |]. intros hr' _.
    apply preserves_store. simpl. apply good_moved_from. exact Hhr.
  - eapply preserves_bind; [apply (preserves_deleter_of (RefTo y)); exact Logic.I |].
    intros d Hd.
    eapply preserves_bind; [apply (preserves_deleter_of (RefTo x)); exact Logic.I |].
    intros _ _ st a st' (H1 & H2 & H3) [= <- <-]. split; [| exact Logic.I].
    split; [exact H1 | split; [| exact H3]]. simpl. intros k d' Hk.
    rewrite lookup_insert in Hk.
    case_decide; [injection Hk as <-; exact Hd | exact (H2 _ _ Hk)].
Qed.

Lemma preserves_move_assign (v : variant) this r :
  preserves good (move_assign moved_from v this r) (fun _ => True).
Proof.
  unfold move_assign. destruct (negb (this =? r)); [| apply preserves_ret; exact Logic.I].
  eapply preserves_bind; [apply preserves_Release |]. intros p _.
  eapply preserves_bind; [apply preserves_Reset |]. intros _ _.
  apply preserves_assign_deleter.
Qed.

Lemma preserves_not_live this :
  preserves good (not_live this) (fun _ => True).
Proof.
  intros st a st' Hinv Hrun. unfold not_live in Hrun.
  destruct (handles st !! this); [discriminate |].
  injection Hrun as <- <-. split; [exact Hinv | exact Logic.I].
Qed.

Lemma preserves_move_ctor (v : variant) this r :
  preserves good (move_ctor moved_from default_d v this r) (fun _ => True).
Proof.
  destruct v.
  - unfold move_ctor. eapply preserves_bind; [apply preserves_not_live |]. intros _ _.
    eapply preserves_bind; [apply preserves_Release |]. intros p _.
    eapply preserves_bind; [apply preserves_load |]. intros hr Hhr.
    simpl in Hhr. destruct (_d hr) as [d|y].
    + eapply preserves_bind;
        [apply preserves_store; simpl; apply good_moved_from; exact Hhr |].
      intros _ _. apply preserves_store. exact Hhr.
    + apply preserves_store. exact Logic.I.
  - intros st a st' Hinv Hrun. split; [| exact Logic.I].
    destruct (handles st !! this) as [ht|] eqn:Ht.
    { unfold move_ctor, bind, not_live in Hrun. rewrite Ht in Hrun. discriminate. }
    destruct (handles st !! r) as [[pr [dr|y]]|] eqn:Hr.
    + rewrite (move_ctor_array_live _ _ _ _ _ Ht Hr) in Hrun.
      injection Hrun as <- <-. destruct st as [hs ds cs]. simpl in *.
      assert (Hdr : good dr) by (destruct Hinv as (Hh & _); exact (Hh _ _ Hr)).
      apply releasers_good_insert; [apply releasers_good_insert |].
      * exact Hinv.
      * exact Hdr.
      * simpl. apply good_moved_from. exact Hdr.
    + unfold move_ctor, bind, not_live, load in Hrun. rewrite Ht, Hr in Hrun.
      discriminate.
    + unfold move_ctor, bind, not_live, load in Hrun. rewrite Ht, Hr in Hrun.
      discriminate.
Qed.

Lemma preserves_Swap (v : variant) this other :
  preserves good (Swap moved_from default_d v this other) (fun _ => True).
Proof.
  unfold Swap.
  eapply (preserves_bind _ _ (fun _ => True)).
  { intros st a st' Hinv [= <- <-]. split; [exact Hinv | exact Logic.I]. }
  intros temp _.
  eapply preserves_bind; [apply preserves_move_ctor |]. intros _ _.
  eapply preserves_bind; [apply preserves_move_assign |]. intros _ _.
  eapply preserves_bind; [apply preserves_move_assign |]. intros _ _.
  apply preserves_destroy.
Qed.

Lemma preserves_assign_forwarded_deleter this r :
  preserves good (assign_forwarded_deleter moved_from this r) (fun _ => True).
Proof.
  unfold assign_forwarded_deleter.
  eapply preserves_bind; [apply preserves_load |]. intros hr Hhr.
  eapply preserves_bind; [apply preserves_deleter_of, Hhr |]. intros d Hd.
  eapply preserves_bind; [apply preserves_load |]. intros ht Hht.
  simpl in Hhr, Hht.
  eapply (preserves_bind _ _ (fun _ => True)).
  - destruct (_d ht) as [dt|x].
    + apply preserves_store. exact Hd.
    + eapply preserves_bind; [apply (preserves_deleter_of (RefTo x)); exact Logic.I |].
      intros _ _ st a st' (H1 & H2 & H3) [= <- <-]. split; [| exact Logic.I].
      split; [exact H1 | split; [| exact H3]]. simpl. intros k d' Hk.
      rewrite lookup_insert in Hk.
      case_decide; [injection Hk as <-; exact Hd | exact (H2 _ _ Hk)].
  - intros _ _. destruct (_d hr) as [dr|y].
    + eapply preserves_bind; [apply preserves_load |]. intros hr' _.
      apply preserves_store. simpl. apply good_moved_from. exact Hd.
    + apply preserves_ret. exact Logic.I.
Qed.

Lemma preserves_converting_move_assign (v : variant) I c this r :
  preserves good
    (converting_move_assign moved_from is_array_convertible is_convertible_v v I c this r)
    (fun _ => True).
Proof.
  unfold converting_move_assign.
  destruct (converting_assign_requires _ _ _ _ _); [| apply preserves_fail].
  eapply preserves_bind; [apply preserves_Release |]. intros p _.
  eapply preserves_bind; [apply preserves_Reset |]. intros _ _.
  apply preserves_assign_forwarded_deleter.
Qed.

Lemma deleter_of_state (s : deleter_slot D) st d st0 :
  deleter_of s st = Some (d, st0) -> st0 = st.
Proof.
  unfold deleter_of. destruct s as [d'|x].
  - intros [= _ <-]. reflexivity.
  - destruct (deleters st !! x); [intros [= _ <-]; reflexivity | discriminate].
Qed.

Lemma deleter_of_frame_None (s : deleter_slot D) st hs cs :
  deleter_of s st = None ->
  deleter_of s (State hs (deleters st) cs) = None.
Proof.
  unfold deleter_of. destruct s as [d'|x]; simpl; [discriminate |].
  destruct (deleters st !! x); [discriminate | reflexivity].
Qed.

(** The converting move constructor either has no result or ends in the
    state where the two handles have their final members. *)
Lemma converting_move_ctor_cases (v : variant) I c this r st res :
  converting_move_ctor moved_from default_d is_array_convertible is_convertible_v
    v I c this r st = res ->
  res = None \/
  exists hr d,
    handles st !! r = Some hr /\
    deleter_of (_d hr) st = Some (d, st) /\
    res
    = Some (tt, State (<[r := Handle nullptr (slot_after_forward moved_from (_d hr))]>
                         (<[this := Handle (_ptr hr) (Owned d)]> (handles st)))
                      (deleters st) (calls st)).
Proof.
  intros Hres. unfold converting_move_ctor in Hres.
  destruct (converting_ctor_requires _ _ _ _ _); [| left; symmetry; exact Hres].
  destruct (_ || _); [left; symmetry; exact Hres |].
  unfold bind at 1 in Hres. unfold not_live in Hres.
  destruct (handles st !! this) as [ht|] eqn:Ht; [left; symmetry; exact Hres |].
  unfold bind at 1 in Hres. unfold load at 1 in Hres.
  destruct (handles st !! r) as [hr|] eqn:Hr; [| left; symmetry; exact Hres].
  unfold bind at 1 in Hres. unfold store at 1 in Hres. unfold bind at 1 in Hres.
  assert (Hne : this <> r) by (intros ->; rewrite Hr in Ht; discriminate).
  erewrite Release_live in Hres
    by (simpl; rewrite lookup_insert_ne by exact Hne; exact Hr).
  unfold bind at 1 in Hres.
  erewrite write_ptr_live in Hres
    by (simpl; rewrite lookup_insert_ne by congruence; apply lookup_insert_eq).
  simpl in Hres.
  destruct (deleter_of (_d hr) st) as [[d st0]|] eqn:Hd.
  - pose proof (deleter_of_state _ _ _ _ Hd) as ->.
    right. exists hr, d. split; [reflexivity |]. split; [exact Hd |].
    edestruct (assign_forwarded_deleter_live this r
                 (State (<[this := Handle (_ptr hr) (Owned default_d)]>
                           (<[r := Handle nullptr (_d hr)]>
                              (<[this := Handle nullptr (Owned default_d)]> (handles st))))
                        (deleters st) (calls st))
                 (Handle (_ptr hr) (Owned default_d)) (Handle nullptr (_d hr))
                 default_d d) as (st' & Hrun & Hhs & _ & Hcs & Hds).
    + exact Hne.
    + simpl. apply lookup_insert_eq.
    + simpl. rewrite lookup_insert_ne by exact Hne. apply lookup_insert_eq.
    + reflexivity.
    + simpl. apply (deleter_of_frame _ st). exact Hd.
    + rewrite Hrun in Hres. subst res.
      destruct st' as [hs' ds' cs']. simpl in Hhs, Hcs, Hds. subst.
      do 3 f_equal. same_map.
  - left. unfold assign_forwarded_deleter, bind, load in Hres. simpl in Hres.
    rewrite lookup_insert_ne in Hres by exact Hne.
    rewrite lookup_insert_eq in Hres. simpl in Hres.
    rewrite (deleter_of_frame_None _ st _ _ Hd) in Hres. symmetry. exact Hres.
Qed.

Lemma preserves_converting_move_ctor (v : variant) I c this r :
  preserves good
    (converting_move_ctor moved_from default_d is_array_convertible is_convertible_v
       v I c this r)
    (fun _ => True).
Proof.
  intros st a st' Hinv Hrun. split; [| exact Logic.I].
  destruct (converting_move_ctor_cases v I c this r st _ eq_refl)
    as [Hnone | (hr & d & Hr & Hd & Hsome)].
  - rewrite Hnone in Hrun. discriminate.
  - rewrite Hsome in Hrun. injection Hrun as <- <-.
    destruct (preserves_load r _ _ _ Hinv (load_live _ _ _ Hr)) as [_ Hhr].
    destruct (preserves_deleter_of _ Hhr _ _ _ Hinv Hd) as [_ Hgd].
    destruct st as [hs ds cs]. simpl in *.
    apply releasers_good_insert; [apply releasers_good_insert |].
    + exact Hinv.
    + exact Hgd.
    + simpl. destruct (_d hr) as [dr|y]; simpl; [| exact Logic.I].
      apply good_moved_from. exact Hhr.
Qed.

Lemma preserves_Reset_U I this a :
  preserves good (Reset_U is_array_convertible I this a) (fun _ => True).
Proof.
  unfold Reset_U. destruct (reset_pointer_rule _ _ _ _);
    [apply preserves_Reset | apply preserves_fail].
Qed.

(** With a pointer-typed releaser the only constructors that build a handle
    take a releaser from the caller. *)
Lemma preserves_construct (v : variant) I (c : ctor D) this :
  Dx.is_pointer_v (deleter_type I) = true ->
  supplies good (op_construct v c this) ->
  preserves good
    (construct default_d is_array_convertible is_convertible_v v I c this)
    (fun _ => True).
Proof.
  intros HP Hs. unfold construct, requires, deleter_requirement.
  destruct c; simpl in *.
  1-3: rewrite HP; simpl; apply preserves_fail.
  all: match goal with
       | |- preserves _ (if ?b then _ else _) _ => destruct b
       end.
  all: try apply preserves_fail.
  all: eapply preserves_bind;
    [apply preserves_not_live
    | intros _ _; apply preserves_store; simpl; first [exact Hs | exact Logic.I]].
Qed.

Lemma preserves_perform I (o : operation D) :
  Dx.is_pointer_v (deleter_type I) = true ->
  supplies good o ->
  preserves good
    (perform moved_from default_d is_array_convertible is_convertible_v I o)
    (fun _ => True).
Proof.
  intros HP Hs. destruct o; simpl.
  - apply preserves_construct; assumption.
  - apply preserves_move_ctor.
  - apply preserves_converting_move_ctor.
  - apply preserves_move_assign.
  - apply preserves_converting_move_assign.
  - apply preserves_Reset.
  - eapply preserves_bind; [apply preserves_Release |]. intros _ _.
    apply preserves_ret. exact Logic.I.
  - apply preserves_Reset.
  - apply preserves_Reset_U.
  - apply preserves_Swap.
  - apply preserves_destroy.
Qed.

Lemma preserves_perform_all I (os : list (operation D)) :
  Dx.is_pointer_v (deleter_type I) = true ->
  Forall (supplies good) os ->
  preserves good
    (perform_all moved_from default_d is_array_convertible is_convertible_v I os)
    (fun _ => True).
Proof.
  intros HP Hs. induction Hs as [| o os Ho _ IH]; simpl.
  - apply preserves_ret. exact Logic.I.
  - eapply preserves_bind; [apply preserves_perform; assumption |].
    intros _ _. exact IH.
Qed.


End Releasers.

End Properties.


(** ** The properties at concrete handles *)

(** C6 at the handle of [one_handle]: [Release()] hands back 100. *)
Lemma Release_returns_pointer_and_empties_witness :
  handles one_handle !! 1 = Some (Handle 100 (Owned 7)) /\
  Get 1 one_handle = Some (100, one_handle) /\
  exists st',
    Release 1 one_handle = Some (100, st') /\
    Get 1 st' = Some (nullptr, st') /\
    GetDeleter 1 st' = Some (Owned 7, st') /\
    calls st' = calls one_handle /\
    deleters st' = deleters one_handle.
Proof.
  split; [reflexivity |].
  apply (Release_returns_pointer_and_empties 1 one_handle (Handle 100 (Owned 7))).
  reflexivity.
Defined.

(** C7 at [one_handle]: the destructor runs releaser 7 once, on 100; on the
    handle emptied by [Reset()] first it would run nothing more. *)
Lemma destroy_invokes_releaser_iff_non_null_witness :
  destroy 1 one_handle
  = Some (tt, State (delete 1 (handles one_handle)) ∅
                    [Call 7 100 (handles one_handle)]) /\
  destroy 1 (State {[ 1 := Handle nullptr (Owned 7) ]} ∅ [])
  = Some (tt, State (delete 1 {[ 1 := Handle nullptr (Owned 7) ]}) ∅ []).
Proof.
  split.
  - apply (proj1 (proj2 (destroy_invokes_releaser_iff_non_null
                           1 one_handle (Handle 100 (Owned 7)) eq_refl)) 7).
    + simpl. unfold nullptr. lia.
    + reflexivity.
  - assert (Hlive : handles (State {[ 1 := Handle nullptr (Owned 7) ]} ∅ []) !! 1
                    = Some (Handle nullptr (Owned 7))) by reflexivity.
    apply (proj2 (proj2 (destroy_invokes_releaser_iff_non_null 1 _ _ Hlive))).
    reflexivity.
Defined.

(** C1 at [one_handle]: during the array [Reset(nullptr)] the releaser runs
    on 100 and finds 100 still stored, not the null pointer being
    installed. *)
Lemma Reset_array_releases_before_install_witness :
  exists st' c,
    Reset Array 1 nullptr one_handle = Some (tt, st') /\
    calls st' = calls one_handle ++ [c] /\
    arg c = 100 /\
    _ptr <$> seen c !! 1 = Some 100 /\
    (nullptr <> 100 -> _ptr <$> seen c !! 1 <> Some nullptr) /\
    Get 1 st' = Some (nullptr, st').
Proof.
  apply (Reset_array_releases_before_install
           1 one_handle (Handle 100 (Owned 7)) 7 nullptr).
  - reflexivity.
  - simpl. unfold nullptr. lia.
  - reflexivity.
Defined.

(** C10 at [one_handle]: [Reset(100)] on the handle that stores 100. *)
Lemma Reset_same_pointer_releases_and_keeps_witness :
  exists st',
    Reset Scalar 1 100 one_handle = Some (tt, st') /\
    calls st' = calls one_handle ++ [Call 7 100 (handles one_handle)] /\
    handles st' = handles one_handle /\
    Get 1 st' = Some (100, st').
Proof.
  apply (Reset_same_pointer_releases_and_keeps
           1 one_handle (Handle 100 (Owned 7)) 7).
  - reflexivity.
  - simpl. unfold nullptr. lia.
  - reflexivity.
Defined.

(** C4 at [two_handles]: [a = move(a)] leaves the state alone, [a = move(b)]
    runs the body. *)
Lemma self_move_assign_is_noop_witness :
  move_assign keep Scalar 1 1 two_handles = Some (tt, two_handles) /\
  move_assign keep Scalar 1 2 two_handles
  = (let* p := Release 2 in Reset Scalar 1 p ;;; assign_deleter keep 1 2) two_handles.
Proof.
  destruct (self_move_assign_is_noop keep Scalar 1 2 two_handles) as [Hself Hother].
  split; [exact Hself |]. apply Hother. lia.
Defined.

(** C3 at [two_handles]: move-constructing a handle at address 3 from [b]
    runs nothing; move-assigning [b] to [a] releases the 100 that [a]
    held. *)
Lemma move_transfers_pointer_witness :
  (exists st',
     move_ctor keep null_fn Scalar 3 2 two_handles = Some (tt, st') /\
     Get 2 st' = Some (nullptr, st') /\
     Get 3 st' = Some (200, st') /\
     calls st' = calls two_handles) /\
  (exists st' cs,
     move_assign keep Scalar 1 2 two_handles = Some (tt, st') /\
     Get 2 st' = Some (nullptr, st') /\
     Get 1 st' = Some (200, st') /\
     calls st' = calls two_handles ++ cs /\
     released cs = [(7, 100)]).
Proof.
  split.
  - apply (proj1 (move_transfers_pointer keep null_fn Scalar 3 2 two_handles
                    (Handle 200 (Owned 8)) eq_refl)).
    + reflexivity.
    + discriminate.
  - apply (proj2 (move_transfers_pointer keep null_fn Scalar 1 2 two_handles
                    (Handle 200 (Owned 8)) eq_refl)
             (Handle 100 (Owned 7)) 7 8).
    + lia.
    + reflexivity.
    + reflexivity.
    + reflexivity.
    + reflexivity.
Defined.

(** C3 as stated fails for move assignment: assigning [b] to [a] in
    [two_handles] invokes the releaser of [a] during the call. *)
Lemma move_assign_invokes_releaser :
  exists st',
    move_assign keep Scalar 1 2 two_handles = Some (tt, st') /\
    released (calls st') = [(7, 100)] /\
    calls st' <> calls two_handles.
Proof.
  eexists. split; [vm_compute; reflexivity |].
  split; [reflexivity | discriminate].
Qed.

(** C5 at [two_ref_handles]: after [a.Swap(b)] both handles release with
    the value 7 that the releaser of [a] had; the 8 of [b] is gone. *)
Lemma Swap_reference_releasers_not_exchanged_witness :
  exists st',
    Swap keep null_fn Scalar 1 2 two_ref_handles = Some (tt, st') /\
    Get 1 st' = Some (200, st') /\
    Get 2 st' = Some (100, st') /\
    (let* s := GetDeleter 1 in deleter_of s) st' = Some (7, st') /\
    (let* s := GetDeleter 2 in deleter_of s) st' = Some (7, st') /\
    calls st' = calls two_ref_handles.
Proof.
  apply (Swap_reference_releasers_not_exchanged
           keep null_fn 1 2 two_ref_handles 100 200 10 20 7 8).
  - lia.
  - reflexivity.
  - reflexivity.
  - reflexivity.
  - reflexivity.
Defined.





(** ** The scenarios of the specification *)

Example scenario_destroy_releases_once (v : variant) :
  run_released (scenario_destroy v) = Some (tt, [(7, 100)]).
Proof. destruct v; vm_compute; reflexivity. Qed.

Example scenario_reset_releases_old_then_new (v : variant) :
  run_released (scenario_reset v) = Some (tt, [(7, 100); (7, 200)]).
Proof. destruct v; vm_compute; reflexivity. Qed.

Example scenario_release_releases_nothing (v : variant) :
  run_released (scenario_release v) = Some (100, []).
Proof. destruct v; vm_compute; reflexivity. Qed.

Example scenario_move_releases_once (v : variant) :
  run_released (scenario_move v) = Some ((nullptr, 100), [(7, 100)]).
Proof. destruct v; vm_compute; reflexivity. Qed.

Example scenario_swap_releases_each_once (v : variant) :
  run_released (scenario_swap v) = Some ((200, 100), [(8, 200); (7, 100)]).
Proof. destruct v; vm_compute; reflexivity. Qed.

Example scenario_index_has_no_instance :
  run_released scenario_index = None /\
  run_released scenario_index_as_specified = Some ((100, 101, 102), [(7, 100)]).
Proof. split; vm_compute; reflexivity. Qed.

(** ** The further properties at concrete handles *)

Lemma Reset_installs_and_releases_old_witness :
  exists st',
    Reset Array 1 200 one_handle = Some (tt, st') /\
    Get 1 st' = Some (200, st') /\
    GetDeleter 1 st' = Some (Owned 7, st') /\
    released (calls st') = released (calls one_handle) ++ [(7, 100)] /\
    deleters st' = deleters one_handle /\
    (forall other, other <> 1 -> handles st' !! other = handles one_handle !! other).
Proof.
  apply (Reset_installs_and_releases_old Array 1 one_handle (Handle 100 (Owned 7)) 7 200);
    reflexivity.
Defined.

Lemma Release_then_Reset_restores_witness :
  (let* p := Release 1 in Reset Scalar 1 p) one_handle = Some (tt, one_handle).
Proof.
  apply (Release_then_Reset_restores Scalar 1 one_handle (Handle 100 (Owned 7))).
  reflexivity.
Defined.

Lemma Release_then_destroy_releases_nothing_witness :
  (let* p := Release 1 in destroy 1 ;;; ret p) one_handle
  = Some (100, State (delete 1 (handles one_handle)) ∅ []).
Proof.
  apply (Release_then_destroy_releases_nothing 1 one_handle (Handle 100 (Owned 7))).
  reflexivity.
Defined.

Lemma assign_nullptr_then_destroy_releases_once_witness :
  exists st1 st2,
    (assign_nullptr Scalar 1 ;;; destroy 1) one_handle = Some (tt, st1) /\
    destroy 1 one_handle = Some (tt, st2) /\
    handles st1 = handles st2 /\
    deleters st1 = deleters st2 /\
    released (calls st1) = released (calls st2) /\
    released (calls st1) = released (calls one_handle) ++ [(7, 100)].
Proof.
  apply (assign_nullptr_then_destroy_releases_once
           Scalar 1 one_handle (Handle 100 (Owned 7)) 7); reflexivity.
Defined.

Lemma operator_bool_tells_whether_destroy_releases_witness :
  exists b st',
    operator_bool 1 empty_and_full = Some (b, empty_and_full) /\
    destroy 1 empty_and_full = Some (tt, st') /\
    released (calls st') = released (calls empty_and_full) ++ (if b then [(7, nullptr)] else []).
Proof.
  apply (operator_bool_tells_whether_destroy_releases
           1 empty_and_full (Handle nullptr (Owned 7)) 7); reflexivity.
Defined.

Lemma aliased_pointer_is_released_twice_witness :
  exists st',
    (destroy 1 ;;; destroy 2) aliased_handles = Some (tt, st') /\
    released (calls st') = released (calls aliased_handles) ++ [(7, 100); (8, 100)].
Proof.
  apply (aliased_pointer_is_released_twice 1 2 aliased_handles 100 (Owned 7) (Owned 8) 7 8);
    try reflexivity.
  - lia.
  - unfold nullptr. lia.
Defined.

Lemma Swap_exchanges_pointers_and_releasers_witness :
  exists st',
    Swap keep null_fn Array 1 2 two_handles = Some (tt, st') /\
    Get 1 st' = Some (200, st') /\
    GetDeleter 1 st' = Some (Owned 8, st') /\
    Get 2 st' = Some (100, st') /\
    GetDeleter 2 st' = Some (Owned 7, st') /\
    calls st' = calls two_handles /\
    deleters st' = deleters two_handles /\
    dom (handles st') = dom (handles two_handles) /\
    (forall k, k <> 1 -> k <> 2 -> handles st' !! k = handles two_handles !! k).
Proof.
  apply (Swap_exchanges_pointers_and_releasers keep null_fn Array 1 2 two_handles 100 200 7 8);
    [lia | reflexivity | reflexivity].
Defined.

Lemma Swap_twice_restores_witness :
  (Swap keep null_fn Scalar 1 2 ;;; Swap keep null_fn Scalar 1 2) two_handles
  = Some (tt, two_handles).
Proof.
  apply (Swap_twice_restores keep null_fn Scalar 1 2 two_handles 100 200 7 8);
    [lia | reflexivity | reflexivity].
Defined.

Lemma Swap_with_itself_is_noop_witness :
  Swap keep null_fn Scalar 1 1 two_ref_handles = Some (tt, two_ref_handles).
Proof.
  apply (Swap_with_itself_is_noop keep null_fn Scalar 1 two_ref_handles
           (Handle 100 (RefTo 10)) 7); [reflexivity | reflexivity | discriminate].
Defined.

Lemma move_ctor_then_destroy_both_releases_once_witness :
  exists st',
    (move_ctor keep null_fn Array 3 2 ;;; destroy 2 ;;; destroy 3) two_handles
    = Some (tt, st') /\
    released (calls st') = released (calls two_handles) ++ [(8, 200)] /\
    handles st' = delete 2 (handles two_handles) /\
    deleters st' = deleters two_handles.
Proof.
  apply (move_ctor_then_destroy_both_releases_once keep null_fn Array 3 2 two_handles
           (Handle 200 (Owned 8)) 8); try reflexivity.
  intros _. exists 8. reflexivity.
Defined.

Lemma move_assign_then_destroy_both_releases_each_once_witness :
  exists st',
    (move_assign keep Array 1 2 ;;; destroy 1 ;;; destroy 2) two_handles
    = Some (tt, st') /\
    released (calls st') = released (calls two_handles) ++ [(7, 100)] ++ [(8, 200)] /\
    handles st' = delete 2 (delete 1 (handles two_handles)).
Proof.
  apply (move_assign_then_destroy_both_releases_each_once keep Array 1 2 two_handles
           (Handle 100 (Owned 7)) (Handle 200 (Owned 8)) 7 8); try reflexivity.
  lia.
Defined.

Lemma construct_stores_its_arguments_witness :
  exists st',
    new_handle Array 1 100 7 empty_state = Some (tt, st') /\
    Get 1 st' = Some (100, st') /\
    GetDeleter 1 st' = Some (Owned 7, st') /\
    calls st' = calls empty_state /\
    deleters st' = deleters empty_state /\
    (forall other, other <> 1 -> handles st' !! other = handles empty_state !! other).
Proof.
  apply (construct_stores_its_arguments null_fn qualification_convertible pointer_convertible Array int_handle
           (ctor_ptr_cref (PtrArg (PointerTo int_t) 100) 7) 1 empty_state
           (Handle 100 (Owned 7))); reflexivity.
Defined.

Lemma construct_then_destroy_releases_argument_witness :
  exists st',
    (new_handle Scalar 1 100 7 ;;; destroy 1) empty_state = Some (tt, st') /\
    handles st' = handles empty_state /\
    deleters st' = deleters empty_state /\
    released (calls st') = released (calls empty_state) ++ [(7, 100)].
Proof.
  apply (construct_then_destroy_releases_argument null_fn qualification_convertible pointer_convertible
           Scalar int_handle (ctor_ptr_cref (PtrArg (PointerTo int_t) 100) 7) 1
           empty_state (Handle 100 (Owned 7)) 7); reflexivity.
Defined.

Lemma value_and_reference_constructors_exclude_witness :
  (requires qualification_convertible pointer_convertible Scalar int_handle
     (ctor_ptr_ref (PtrArg (PointerTo int_t) 100) 10 : ctor fnptr) = false /\
   requires qualification_convertible pointer_convertible Scalar int_handle
     (ctor_ptr_noref_rvalue (PtrArg (PointerTo int_t) 100) 7) = false) /\
  (requires qualification_convertible pointer_convertible Scalar (Instantiation int_t ref_deleter)
     (ctor_ptr_cref (PtrArg (PointerTo int_t) 100) 7) = false /\
   requires qualification_convertible pointer_convertible Scalar (Instantiation int_t ref_deleter)
     (ctor_ptr_rref (PtrArg (PointerTo int_t) 100) 7) = false) /\
  construct null_fn qualification_convertible pointer_convertible Scalar (Instantiation int_t ref_deleter)
    (ctor_ptr_noref_rvalue (PtrArg (PointerTo int_t) 100) 7) 1 empty_state = None.
Proof.
  pose (a := PtrArg (PointerTo int_t) 100).
  destruct (value_and_reference_constructors_exclude null_fn qualification_convertible pointer_convertible
              Scalar int_handle a a a 7 7 7 10 1 empty_state) as (Hval & _ & _).
  destruct (value_and_reference_constructors_exclude null_fn qualification_convertible pointer_convertible
              Scalar (Instantiation int_t ref_deleter) a a a 7 7 7 10 1 empty_state)
    as (_ & Href & Hdel).
  split; [apply Hval; left; reflexivity |].
  split; [apply Href; reflexivity | exact Hdel].
Defined.

Lemma array_pointer_rules_witness :
  (reset_pointer_rule qualification_convertible (Named 9 false) int_t (PointerTo int_t) = true
   <-> PointerTo int_t = Named 9 false) /\
  reset_pointer_rule qualification_convertible (PointerTo int_t) int_t nullptr_t = false /\
  (reset_pointer_rule qualification_convertible
     (PointerTo const_int_t) const_int_t (PointerTo int_t) = true ->
   ctor_pointer_rule qualification_convertible
     (PointerTo const_int_t) const_int_t (PointerTo int_t) = true).
Proof.
  destruct (array_pointer_rules qualification_convertible
              (Named 9 false) int_t (PointerTo int_t)) as (_ & _ & _ & Hfancy & _).
  destruct (array_pointer_rules qualification_convertible
              (PointerTo int_t) int_t nullptr_t) as (_ & _ & _ & _ & Hnull).
  destruct (array_pointer_rules qualification_convertible
              (PointerTo const_int_t) const_int_t (PointerTo int_t)) as (Hsub & _).
  split; [apply Hfancy; discriminate |].
  split; [apply Hnull; [reflexivity | discriminate] | exact Hsub].
Defined.

Lemma converting_moves_between_variants_witness :
  converting_ctor_requires qualification_convertible pointer_convertible
    Scalar int_handle from_int_array_handle = false /\
  converting_assign_requires qualification_convertible pointer_convertible
    Scalar int_handle from_int_array_handle = true /\
  converting_ctor_requires qualification_convertible pointer_convertible
    Array int_handle from_int_handle = false /\
  converting_assign_requires qualification_convertible pointer_convertible
    Array int_handle from_int_handle = false.
Proof.
  destruct (converting_moves_between_variants qualification_convertible pointer_convertible
              int_handle from_int_array_handle) as (Hctor & _ & Hassign).
  destruct (converting_moves_between_variants qualification_convertible pointer_convertible
              int_handle from_int_handle) as (_ & Hscalar & _).
  split; [apply Hctor; reflexivity |].
  split; [apply Hassign; reflexivity |].
  apply Hscalar. reflexivity.
Defined.

Lemma converting_move_ctor_transfers_witness :
  (exists st',
     converting_move_ctor keep null_fn qualification_convertible pointer_convertible
       Scalar (Instantiation const_int_t class_deleter) from_int_handle 3 2 two_handles
     = Some (tt, st') /\
     Get 2 st' = Some (nullptr, st') /\
     Get 3 st' = Some (200, st') /\
     GetDeleter 3 st' = Some (Owned 8, st') /\
     calls st' = calls two_handles) /\
  converting_move_ctor keep null_fn qualification_convertible pointer_convertible
    Scalar (Instantiation int_t ref_deleter)
    (Conversion Scalar (Instantiation int_t ref_deleter) true true false true)
    3 2 two_ref_handles = None /\
  converting_move_ctor keep null_fn qualification_convertible pointer_convertible
    Scalar (Instantiation const_int_t no_default_deleter) from_int_handle 3 2 two_handles
  = None.
Proof.
  split; [| split].
  - apply (proj1 (converting_move_ctor_transfers keep null_fn
                    qualification_convertible pointer_convertible
                    Scalar (Instantiation const_int_t class_deleter) from_int_handle
                    3 2 two_handles (Handle 200 (Owned 8)) 8
                    eq_refl eq_refl eq_refl eq_refl)); reflexivity.
  - apply (proj2 (converting_move_ctor_transfers keep null_fn
                    qualification_convertible pointer_convertible
                    Scalar (Instantiation int_t ref_deleter)
                    (Conversion Scalar (Instantiation int_t ref_deleter) true true false true)
                    3 2 two_ref_handles (Handle 200 (RefTo 20)) 8
                    eq_refl eq_refl eq_refl eq_refl)).
    left. reflexivity.
  - apply (proj2 (converting_move_ctor_transfers keep null_fn
                    qualification_convertible pointer_convertible
                    Scalar (Instantiation const_int_t no_default_deleter) from_int_handle
                    3 2 two_handles (Handle 200 (Owned 8)) 8
                    eq_refl eq_refl eq_refl eq_refl)).
    right. left. reflexivity.
Defined.

Lemma converting_move_assign_transfers_witness :
  exists st',
    converting_move_assign keep qualification_convertible pointer_convertible
      Scalar int_handle from_int_array_handle 1 2 two_handles = Some (tt, st') /\
    Get 2 st' = Some (nullptr, st') /\
    Get 1 st' = Some (200, st') /\
    GetDeleter 1 st' = Some (Owned 8, st') /\
    released (calls st') = released (calls two_handles) ++ [(7, 100)].
Proof.
  apply (converting_move_assign_transfers keep qualification_convertible pointer_convertible
           Scalar int_handle from_int_array_handle 1 2 two_handles
           100 7 (Handle 200 (Owned 8)) 8); try reflexivity.
  lia.
Defined.

Lemma Reset_U_takes_pointer_itself_witness :
  (exists st',
     Reset_U qualification_convertible int_handle 1 (PtrArg (PointerTo int_t) 200) one_handle
     = Some (tt, st') /\
     Get 1 st' = Some (200, st') /\
     released (calls st') = released (calls one_handle) ++ [(7, 100)]) /\
  Reset_U qualification_convertible int_handle 1 (PtrArg (Named 5 false) 200) one_handle
  = None.
Proof.
  split.
  - apply (proj1 (Reset_U_takes_pointer_itself qualification_convertible int_handle 1
                    (PtrArg (PointerTo int_t) 200) one_handle (Handle 100 (Owned 7)) 7
                    eq_refl eq_refl)).
    reflexivity.
  - apply (proj2 (Reset_U_takes_pointer_itself qualification_convertible int_handle 1
                    (PtrArg (Named 5 false) 200) one_handle (Handle 100 (Owned 7)) 7
                    eq_refl eq_refl)).
    + reflexivity.
    + discriminate.
Defined.

(** The primary template takes [pointer p]: [UniquePtr<int, Del>] cannot be
    built from a [const int*], which does not convert to [int*]. *)
Example scalar_constructor_refuses_unconvertible_pointer :
  construct null_fn qualification_convertible pointer_convertible Scalar int_handle
    (ctor_ptr (PtrArg (PointerTo const_int_t) 100)) 1 empty_state = None /\
  construct null_fn qualification_convertible pointer_convertible Scalar int_handle
    (ctor_ptr_cref (PtrArg (PointerTo const_int_t) 100) 7) 1 empty_state = None.
Proof. split; reflexivity. Qed.
